(** * bitmap.c: a 24-bit bitmap writer and a midpoint circle rasterizer

    A shallow embedding of [bitmap.c] and the properties of its canvas,
    rasterizer and encoder, followed by the growable string of [cString.c].

    Conventions of the embedding.
    - A C [int] is a [Z] in the range [INT_MIN .. INT_MAX]; every arithmetic
      operation of the source is written with its 32-bit two's complement
      wrap-around ([CInt.wrap]).  ISO C leaves signed overflow undefined; the
      wrap-around is what the usual compilers produce, and the theorems that
      depend on a result being meaningful carry the range hypotheses under
      which no operation overflows.
    - An array is a [list]; reading or writing outside it is undefined
      behaviour in C and is [None] here.
    - The machine is little-endian with 4-byte [int] and 2-byte [short], as
      the source presupposes when it writes the packed header with one
      [fwrite] and reads a pixel through an [unsigned char *].
    - A byte is a [Z] in [0 .. 255]. *)

From Stdlib Require Import ZArith Lia String.
From stdpp Require Import base list.

Local Open Scope Z_scope.

(** * Part I: the embedding *)

(** ** C integers *)

Module CInt.

Definition INT_MAX : Z := 2147483647.
Definition INT_MIN : Z := -2147483648.

(** Reduction of a mathematical integer to the 32-bit signed range. *)
Definition wrap (z : Z) : Z := (z + 2147483648) mod 4294967296 - 2147483648.

Definition in_int (z : Z) : Prop := INT_MIN <= z <= INT_MAX.

Definition add (a b : Z) : Z := wrap (a + b).
Definition sub (a b : Z) : Z := wrap (a - b).
Definition mul (a b : Z) : Z := wrap (a * b).
Definition shl (a n : Z) : Z := wrap (Z.shiftl a n).
(** C division truncates towards zero; [%] is the matching remainder. *)
Definition div (a b : Z) : Z := wrap (Z.quot a b).
Definition rem (a b : Z) : Z := Z.rem a b.

(** Conversion of an [int] to [size_t] (64 bits). *)
Definition SIZE_MAX : Z := 18446744073709551615.
Definition to_size_t (z : Z) : Z := z mod (SIZE_MAX + 1).

End CInt.

(** ** Memory: arrays, object representations *)

(** [a[i]] as an rvalue: undefined outside the array. *)
Definition arr_get {A : Type} (a : list A) (i : Z) : option A :=
  if 0 <=? i then a !! Z.to_nat i else None.

(** [a[i] = v]: undefined outside the array. *)
Definition arr_set {A : Type} (a : list A) (i : Z) (v : A) : option (list A) :=
  if (0 <=? i) && (i <? Z.of_nat (length a))
  then Some (<[Z.to_nat i := v]> a) else None.

(** Byte [k] of the little-endian two's complement representation of [v]:
    what [((unsigned char * )&v)[k]] reads. *)
Definition int_byte (v : Z) (k : Z) : Z := (v / 256 ^ k) mod 256.

(** The [n] bytes of an [n]-byte integer object, lowest address first. *)
Definition le_bytes (n : nat) (v : Z) : list Z :=
  map (fun k => int_byte v (Z.of_nat k)) (seq 0 n).

(** The contents of an automatic array of [n] [unsigned char] that has not
    been initialised: whatever the stack holds there.  [stack] gives the
    value found at each offset. *)
Definition uninitialised (stack : nat -> Z) (n : Z) : list Z :=
  map (fun i => stack i mod 256) (seq 0 (Z.to_nat n)).

(** A counted loop over the given index values, threading a state and
    stopping at the first undefined step. *)
Fixpoint for_loop {S : Type} (idx : list Z) (body : Z -> S -> option S) (s : S)
  : option S :=
  match idx with
  | [] => Some s
  | i :: rest => s' ← body i s; for_loop rest body s'
  end.

(** The values [n-1, n-2, ..., 0] of a loop [for (y = n-1; y >= 0; y--)]. *)
Fixpoint countdown (n : nat) : list Z :=
  match n with
  | O => []
  | S k => Z.of_nat k :: countdown k
  end.

(** ** The macros of the source *)

Definition BITCOUNT : Z := 24.

(** [#define BMP_BYTES_PER_LINE(width, bits) (((((width) * (bits)) + 31) / 32) * 4)] *)
Definition BMP_BYTES_PER_LINE (width bits : Z) : Z :=
  CInt.mul (CInt.div (CInt.add (CInt.mul width bits) 31) 32) 4.

(** [#define GET_PIXEL_INDEX(x, y, width) ((x) + ((y)*(width)))] *)
Definition GET_PIXEL_INDEX (x y width : Z) : Z :=
  CInt.add x (CInt.mul y width).

(** [#define PIXCOLOR(r,g,b) ((r) | ((g)<<8) | ((b)<<16) )] *)
Definition PIXCOLOR (r g b : Z) : Z :=
  Z.lor (Z.lor r (CInt.shl g 8)) (CInt.shl b 16).

(** ** The data model *)

(** [struct bitmapHeader], packed: 54 bytes. *)
Record bitmapHeader := {
  bfType : Z * Z;
  fileSize : Z;
  reserved : Z;
  imageOffset : Z;
  headerSize : Z;
  width : Z;
  height : Z;
  planes : Z;
  bitCount : Z;
  compression : Z;
  imageSize : Z;
  xPixelsPerMeter : Z;
  yPixelsPerMeter : Z;
  colorsUsed : Z;
  colorsImportant : Z
}.

(** [struct bitmapData]; [pixelBuffer] is the block the pointer refers to. *)
Record bitmapData := {
  header : bitmapHeader;
  pixelBuffer : list Z
}.

(** [sizeof(struct bitmapHeader)] and [sizeof(struct bitmapData)] (the
    packed header, then the pointer at its 8-byte alignment). *)
Definition sizeof_bitmapHeader : Z := 54.
Definition sizeof_bitmapData : Z := 64.

(** The object representation of the packed header, which [fwrite] copies
    to the file as it is. *)
Definition header_bytes (hd : bitmapHeader) : list Z :=
  [fst (bfType hd) mod 256; snd (bfType hd) mod 256]
  ++ le_bytes 4 (fileSize hd)
  ++ le_bytes 4 (reserved hd)
  ++ le_bytes 4 (imageOffset hd)
  ++ le_bytes 4 (headerSize hd)
  ++ le_bytes 4 (width hd)
  ++ le_bytes 4 (height hd)
  ++ le_bytes 2 (planes hd)
  ++ le_bytes 2 (bitCount hd)
  ++ le_bytes 4 (compression hd)
  ++ le_bytes 4 (imageSize hd)
  ++ le_bytes 4 (xPixelsPerMeter hd)
  ++ le_bytes 4 (yPixelsPerMeter hd)
  ++ le_bytes 4 (colorsUsed hd)
  ++ le_bytes 4 (colorsImportant hd).

(** ** The output sink *)

(** An open stream: the bytes it has accepted and the room its device has
    left.  A write that does not fit is cut short, which is how a write
    fails. *)
Record FILE := {
  fbytes : list Z;
  froom : nat
}.

(** [fwrite(ptr, size, nmemb, stream)]: the number of whole items written
    and the stream afterwards.  [ptr] holds at least [size*nmemb] bytes at
    every call of the source. *)
Definition fwrite (ptr : list Z) (size nmemb : Z) (stream : FILE) : Z * FILE :=
  let want := Z.to_nat (size * nmemb) in
  let n := Nat.min want (froom stream) in
  (Z.of_nat n / size,
   {| fbytes := fbytes stream ++ take n ptr; froom := (froom stream - n)%nat |}).

(** The files that can be opened for writing, each with the room of its
    device; [None] for a name that cannot be opened. *)
Definition filesystem : Type := string -> option nat.

(** [fopen(filename, "w")]: a new, empty stream, or [NULL]. *)
Definition fopen (fs : filesystem) (filename : string) : option FILE :=
  room ← fs filename; Some {| fbytes := []; froom := room |}.

(** ** The allocator *)

(** The heap: the bytes it can still hand out and the blocks in use. *)
Record heap := {
  free_bytes : Z;
  live_blocks : nat
}.

(** [calloc(nmemb, size)] for an array of [int] or one structure: a zeroed
    block of [nmemb] cells, or [NULL] when the request overflows [size_t]
    or exceeds what is free.  A request of zero bytes is granted. *)
Definition calloc (nmemb size : Z) (hp : heap) : option (list Z) * heap :=
  let bytes := nmemb * size in
  if (bytes <=? CInt.SIZE_MAX) && (bytes <=? free_bytes hp)
  then (Some (replicate (Z.to_nat nmemb) 0),
        {| free_bytes := free_bytes hp - bytes; live_blocks := S (live_blocks hp) |})
  else (None, hp).

(** [free] of a block of [bytes] bytes. *)
Definition free (bytes : Z) (hp : heap) : heap :=
  {| free_bytes := free_bytes hp + bytes; live_blocks := pred (live_blocks hp) |}.

(** ** The encoder *)

(** The body of the column loop of [writeBitmapData]: the three low bytes
    of the pixel at [(x, y)] go to [lineBuffer] at [3*x .. 3*x+2]. *)
Definition pack_pixel (bitmap : bitmapData) (y x : Z) (lineBuffer : list Z)
  : option (list Z) :=
  currentPixel ← arr_get (pixelBuffer bitmap)
                   (GET_PIXEL_INDEX x y (width (header bitmap)));
  let lineStart := CInt.mul x 3 in
  let pixelAsBytes := int_byte currentPixel in
  lb0 ← arr_set lineBuffer lineStart (pixelAsBytes 0);
  lb1 ← arr_set lb0 (CInt.add lineStart 1) (pixelAsBytes 1);
  arr_set lb1 (CInt.add lineStart 2) (pixelAsBytes 2).

(** The body of the row loop: fill the line buffer from row [y], then write
    it out.  The state is the line buffer, which lives across the rows, and
    the stream. *)
Definition write_row (bitmap : bitmapData) (bytesPerRow : Z) (y : Z)
    (st : list Z * FILE) : option (list Z * FILE) :=
  lineBuffer ← for_loop (seqZ 0 (width (header bitmap)))
                 (pack_pixel bitmap y) (fst st);
  Some (lineBuffer, snd (fwrite lineBuffer 1 bytesPerRow (snd st))).

(** [int writeBitmapData(FILE *output, struct bitmapData *bitmap)].
    [stack] is what the line buffer, a variable-length array that the
    source does not initialise, holds when it is declared.  Such an array
    must have a positive size.  The result is the returned status, the
    stream and the bitmap, whose header the function fills in. *)
Definition writeBitmapData (output : FILE) (bitmap : bitmapData)
    (stack : nat -> Z) : option (Z * FILE * bitmapData) :=
  let bytesPerRow := BMP_BYTES_PER_LINE (width (header bitmap)) BITCOUNT in
  let imageFullSize := CInt.mul bytesPerRow (height (header bitmap)) in
  let hd :=
    {| bfType := (66, 77);
       headerSize := 40;
       imageOffset := sizeof_bitmapHeader;
       planes := 1;
       bitCount := BITCOUNT;
       reserved := 0;
       colorsImportant := 0;
       colorsUsed := 0;
       imageSize := imageFullSize;
       fileSize := CInt.add imageFullSize sizeof_bitmapHeader;
       xPixelsPerMeter := 0;
       yPixelsPerMeter := 0;
       width := width (header bitmap);
       height := height (header bitmap);
       compression := compression (header bitmap) |} in
  let bitmap := {| header := hd; pixelBuffer := pixelBuffer bitmap |} in
  let output := snd (fwrite (header_bytes hd) sizeof_bitmapHeader 1 output) in
  if bytesPerRow <=? 0 then None else
  let lineBuffer := uninitialised stack bytesPerRow in
  st ← for_loop (countdown (Z.to_nat (CInt.sub (height hd) 1 + 1)))
         (write_row bitmap bytesPerRow) (lineBuffer, output);
  Some (0, snd st, bitmap).

(** [int saveBitmap(char *filename, struct bitmapData *bitmap)]: the status,
    the file as it is closed (none when it could not be opened) and the
    bitmap.  The messages printed on the standard output are left out. *)
Definition saveBitmap (fs : filesystem) (filename : string)
    (bitmap : bitmapData) (stack : nat -> Z)
  : option (Z * option FILE * bitmapData) :=
  match fopen fs filename with
  | None => Some (-1, None, bitmap)
  | Some output =>
      r ← writeBitmapData output bitmap stack;
      Some (0, Some (snd (fst r)), snd r)
  end.

(** ** The canvas *)

(** [struct bitmapData *newBitmap(int width, int height)]: the canvas, or
    none for [NULL], and the heap afterwards. *)
Definition newBitmap (hp : heap) (width height : Z) : option bitmapData * heap :=
  match calloc 1 sizeof_bitmapData hp with
  | (None, hp) => (None, hp)
  | (Some _, hp) =>
      let hd :=
        {| bfType := (0, 0); fileSize := 0; reserved := 0; imageOffset := 0;
           headerSize := 0; width := width; height := height; planes := 0;
           bitCount := 0; compression := 0; imageSize := 0;
           xPixelsPerMeter := 0; yPixelsPerMeter := 0; colorsUsed := 0;
           colorsImportant := 0 |} in
      let numberOfPixels := CInt.mul width height in
      match calloc (CInt.to_size_t numberOfPixels) 4 hp with
      | (None, hp) => (None, free sizeof_bitmapData hp)
      | (Some cells, hp) => (Some {| header := hd; pixelBuffer := cells |}, hp)
      end
  end.

(** [void putPixel(struct bitmapData *bitmap, int x, int y, int red, int green, int blue)] *)
Definition putPixel (bitmap : bitmapData) (x y red green blue : Z)
  : option bitmapData :=
  buf ← arr_set (pixelBuffer bitmap)
          (GET_PIXEL_INDEX x y (width (header bitmap)))
          (PIXCOLOR red green blue);
  Some {| header := header bitmap; pixelBuffer := buf |}.

(** ** The rasterizer *)

(** [void drawCircle(struct bitmapData *bitmap, int xc, int yc, int x, int y)] *)
Definition drawCircle (bitmap : bitmapData) (xc yc x y : Z) : option bitmapData :=
  let red := CInt.rem x 255 in
  let green := CInt.rem y 255 in
  let blue := CInt.sub 255 (CInt.rem x 255) in
  b ← putPixel bitmap (CInt.add xc x) (CInt.add yc y) red green blue;
  b ← putPixel b (CInt.sub xc x) (CInt.add yc y) red green blue;
  b ← putPixel b (CInt.add xc x) (CInt.sub yc y) red green blue;
  b ← putPixel b (CInt.sub xc x) (CInt.sub yc y) red green blue;
  b ← putPixel b (CInt.add xc y) (CInt.add yc x) red green blue;
  b ← putPixel b (CInt.sub xc y) (CInt.add yc x) red green blue;
  b ← putPixel b (CInt.add xc y) (CInt.sub yc x) red green blue;
  putPixel b (CInt.sub xc y) (CInt.sub yc x) red green blue.

(** What a run of the [while] loop comes to. *)
Inductive outcome (A : Type) : Type :=
  | Done (a : A)
  | Undefined
  | OutOfFuel.
Arguments Done {A} a.
Arguments Undefined {A}.
Arguments OutOfFuel {A}.

(** The loop body of [circleBres] between its two calls of [drawCircle]:
    [x++] and the update of the decision parameter. *)
Definition bres_update (x y d : Z) : Z * Z * Z :=
  let x := CInt.add x 1 in
  if d >? 0
  then let y := CInt.sub y 1 in
       (x, y, CInt.add (CInt.add d (CInt.mul 4 (CInt.sub x y))) 10)
  else (x, y, CInt.add (CInt.add d (CInt.mul 4 x)) 6).

(** The [while (y >= x)] loop of [circleBres]; [fuel] bounds the number of
    times the condition is evaluated. *)
Fixpoint circleBres_loop (fuel : nat) (bitmap : bitmapData) (xc yc x y d : Z)
  : outcome bitmapData :=
  match fuel with
  | O => OutOfFuel
  | S fuel =>
      if y >=? x then
        match drawCircle bitmap xc yc x y with
        | None => Undefined
        | Some b1 =>
            let '(x', y', d') := bres_update x y d in
            match drawCircle b1 xc yc x' y' with
            | None => Undefined
            | Some b2 => circleBres_loop fuel b2 xc yc x' y' d'
            end
        end
      else Done bitmap
  end.

(** [void circleBres(struct bitmapData *bitmap, int xc, int yc, int r)] *)
Definition circleBres (fuel : nat) (bitmap : bitmapData) (xc yc r : Z)
  : outcome bitmapData :=
  circleBres_loop fuel bitmap xc yc 0 r (CInt.sub 3 (CInt.mul 2 r)).

(** ** Concrete canvases *)

(** A blank canvas as [newBitmap] returns it. *)
Definition blank (w h : Z) : bitmapData :=
  {| header :=
       {| bfType := (0, 0); fileSize := 0; reserved := 0; imageOffset := 0;
          headerSize := 0; width := w; height := h; planes := 0;
          bitCount := 0; compression := 0; imageSize := 0;
          xPixelsPerMeter := 0; yPixelsPerMeter := 0; colorsUsed := 0;
          colorsImportant := 0 |};
     pixelBuffer := replicate (Z.to_nat (w * h)) 0 |}.

(** The cell of the canvas at [(x, y)]. *)
Definition cell (bitmap : bitmapData) (x y : Z) : option Z :=
  arr_get (pixelBuffer bitmap) (GET_PIXEL_INDEX x y (width (header bitmap))).

(** A canvas the encoder can take: positive dimensions, sizes that fit an
    [int] (so that no operation of the encoder overflows) and a pixel
    buffer of [width*height] cells. *)
Definition canvas_ok (bitmap : bitmapData) : Prop :=
  let w := width (header bitmap) in
  let h := height (header bitmap) in
  0 < w /\ 0 < h /\
  w * 24 + 31 <= CInt.INT_MAX /\
  BMP_BYTES_PER_LINE w BITCOUNT * h + 54 <= CInt.INT_MAX /\
  length (pixelBuffer bitmap) = Z.to_nat (w * h).

(** ** The words of the specification *)

(** The ceiling of [a / b] for a positive [b]: the quotient, plus one when
    the division is not exact. *)
Definition ceil_div (a b : Z) : Z :=
  a / b + (if a mod b =? 0 then 0 else 1).

(** Row-stride: [ceil(width * 24 / 32) * 4]. *)
Definition spec_row_stride (width : Z) : Z := ceil_div (width * 24) 32 * 4.

(** The three lowest-order bytes of a cell, in order. *)
Definition pixel_bytes (c : Z) : list Z := [int_byte c 0; int_byte c 1; int_byte c 2].

(** The cells of row [y] of the canvas, left to right. *)
Definition row_cells (bitmap : bitmapData) (y : Z) : list Z :=
  take (Z.to_nat (width (header bitmap)))
       (drop (Z.to_nat (y * width (header bitmap))) (pixelBuffer bitmap)).

(** The pixel bytes of row [y]: three per cell. *)
Definition scanline (bitmap : bitmapData) (y : Z) : list Z :=
  concat (map pixel_bytes (row_cells bitmap y)).

(** The eight symmetric points of an emission step, as the source computes
    them and in the order it writes them. *)
Definition octants (xc yc x y : Z) : list (Z * Z) :=
  [ (CInt.add xc x, CInt.add yc y); (CInt.sub xc x, CInt.add yc y);
    (CInt.add xc x, CInt.sub yc y); (CInt.sub xc x, CInt.sub yc y);
    (CInt.add xc y, CInt.add yc x); (CInt.sub xc y, CInt.add yc x);
    (CInt.add xc y, CInt.sub yc x); (CInt.sub xc y, CInt.sub yc x) ].

(** The same points in unbounded arithmetic: [(xc +- x, yc +- y)] and
    [(xc +- y, yc +- x)]. *)
Definition symmetric_points (xc yc x y : Z) : list (Z * Z) :=
  [ (xc + x, yc + y); (xc - x, yc + y); (xc + x, yc - y); (xc - x, yc - y);
    (xc + y, yc + x); (xc - y, yc + x); (xc + y, yc - x); (xc - y, yc - x) ].

(** No coordinate of the eight points leaves the range of [int]. *)
Definition emit_in_range (xc yc x y : Z) : Prop :=
  Forall (fun p => CInt.in_int (fst p) /\ CInt.in_int (snd p))
         (symmetric_points xc yc x y).

(** Writing a list of points one after the other, all with one colour. *)
Fixpoint write_points (bitmap : bitmapData) (pts : list (Z * Z))
    (red green blue : Z) : option bitmapData :=
  match pts with
  | [] => Some bitmap
  | p :: rest =>
      b ← putPixel bitmap (fst p) (snd p) red green blue;
      write_points b rest red green blue
  end.

(** One emission step: the eight points, coloured from the local [x], [y]
    with the remainders the source takes. *)
Definition emission (bitmap : bitmapData) (xc yc x y : Z) : option bitmapData :=
  write_points bitmap (octants xc yc x y)
    (Z.rem x 255) (Z.rem y 255) (CInt.sub 255 (Z.rem x 255)).

(** The states [(x, y, d)] the loop of [circleBres] goes through for a
    radius [r]: the initial one, and the one after each pass. *)
Inductive bres_reach (r : Z) : Z -> Z -> Z -> Prop :=
  | reach_init : bres_reach r 0 r (CInt.sub 3 (CInt.mul 2 r))
  | reach_pass x y d x' y' d' :
      bres_reach r x y d -> x <= y ->
      bres_update x y d = (x', y', d') ->
      bres_reach r x' y' d'.

(** Channel [k] of the cell at [(x, y)] after a drawing operation. *)
Definition channel_after (res : option bitmapData) (x y k : Z) : option Z :=
  b ← res; c ← cell b x y; Some (int_byte c k).

(** A canvas the rasterizer can draw on: positive dimensions, a cell count
    that fits an [int], and a pixel buffer of [width*height] cells. *)
Definition canvas_shape (bitmap : bitmapData) : Prop :=
  let w := width (header bitmap) in
  let h := height (header bitmap) in
  0 < w /\ 0 < h /\ w * h <= CInt.INT_MAX /\
  length (pixelBuffer bitmap) = Z.to_nat (w * h).

(** The point [(x, y)] lies on the canvas. *)
Definition in_canvas (bitmap : bitmapData) (x y : Z) : Prop :=
  0 <= x < width (header bitmap) /\ 0 <= y < height (header bitmap).

(** What holds of every state of the loop: [x] has only grown from 0, [y]
    is an [int], and [y] can still be [INT_MAX] only before the first pass
    of a run whose decision parameter is positive. *)
Definition bres_inv (x y d : Z) : Prop :=
  0 <= x /\ CInt.INT_MIN <= y <= CInt.INT_MAX /\
  (y < CInt.INT_MAX \/ (x = 0 /\ 0 < d)).

(** Writing the given rows of [n] bytes one after the other. *)
Definition write_all (rows : list (list Z)) (n : Z) (out : FILE) : FILE :=
  foldl (fun o row => snd (fwrite row 1 n o)) out rows.

(** The bytes that follow the pixel bytes in a line buffer. *)
Definition padding (bitmap : bitmapData) (lineBuffer : list Z) : list Z :=
  drop (Z.to_nat (3 * width (header bitmap))) lineBuffer.

(** A stream just opened, with room for [room] bytes. *)
Definition fresh_stream (room : nat) : FILE := {| fbytes := []; froom := room |}.

(** A stack whose every byte is [v]. *)
Definition stack_of (v : Z) : nat -> Z := fun _ => v.

(** The number of bytes of the file an encoder run has produced. *)
Definition emitted_length (res : option (Z * FILE * bitmapData)) : option nat :=
  r ← res; Some (length (fbytes (snd (fst r)))).

(** The bytes of the file from offset [n] on. *)
Definition emitted_from (n : nat) (res : option (Z * FILE * bitmapData))
  : option (list Z) :=
  r ← res; Some (drop n (fbytes (snd (fst r)))).

(** A 2 x 2 canvas with four different cells. *)
Definition sample_2x2 : bitmapData :=
  {| header := header (blank 2 2);
     pixelBuffer := [66051; 263430; 460809; 658188] |}.

(** A file system where every name opens on a device with [room] bytes. *)
Definition fs_with_room (room : nat) : filesystem := fun _ => Some room.

(** A file system where no name can be opened. *)
Definition fs_closed : filesystem := fun _ => None.

(** ** The rest of the program *)

(** [void freeBitmap(struct bitmapData *bitmap)]; [None] is [NULL].  The
    pixel buffer of a canvas of the model is always a block, of four bytes
    a cell, so that the test of the source on it succeeds. *)
Definition freeBitmap (hp : heap) (bitmap : option bitmapData) : heap :=
  match bitmap with
  | None => hp
  | Some b =>
      free sizeof_bitmapData (free (Z.of_nat (length (pixelBuffer b)) * 4) hp)
  end.

(** The closed form of the decision parameter of [circleBres] at the state
    [(x, y)] of a run with radius [r]. *)
Definition bres_d (r x y : Z) : Z :=
  2 * x * x + 8 * x + 2 * y * y - 6 * y + 3 + 4 * r - 2 * r * r.

(** The largest radius for which the decision parameter stays within an
    [int] all along the run. *)
Definition bres_max_radius : Z := 16384.

(** The square of half-side [r] around [(xc, yc)]. *)
Definition in_box (xc yc r x y : Z) : Prop :=
  xc - r <= x <= xc + r /\ yc - r <= y <= yc + r.

(** The value of a little-endian sequence of bytes: what a reader of the
    file makes of a field. *)
Definition le_value (bs : list Z) : Z :=
  foldr (fun b acc => b + 256 * acc) 0 bs.

(** The field of [n] bytes at offset [off] of a file. *)
Definition field (file : list Z) (off n : nat) : Z :=
  le_value (take n (drop off file)).

(** What holds of every state of a run with a radius between 1 and
    [bres_max_radius]: the decision parameter has its closed form, [x] and
    [y] stay in [0 .. r], only the first state has [x = 0], and a state
    that satisfies the loop condition has [x < r]. *)
Definition bres_strong_inv (r x y d : Z) : Prop :=
  d = bres_d r x y /\ 0 <= x /\ 0 <= y <= r /\
  (x = 0 -> y = r) /\ (x <= y -> x < r).

(** The loop of [main], [while (--radiusStart > 0) circleBres(...)]:
    [radiusStart] is the value of the variable before the decrement. *)
Fixpoint draw_rings (fuel : nat) (radiusStart : nat) (bitmap : bitmapData)
    (xc yc : Z) : outcome bitmapData :=
  match radiusStart with
  | O => Done bitmap
  | S k =>
      if Z.of_nat k >? 0 then
        match circleBres fuel bitmap xc yc (Z.of_nat k) with
        | Done b => draw_rings fuel k b xc yc
        | Undefined => Undefined
        | OutOfFuel => OutOfFuel
        end
      else Done bitmap
  end.

Module BitmapProgram.

(** [int main()] of [bitmap.c]: the exit status, the heap and the file as
    the program leaves them.  [fuel] is the fuel of each circle. *)
Definition main (fuel : nat) (hp : heap) (fs : filesystem) (stack : nat -> Z)
  : outcome (Z * heap * option FILE) :=
  let imgWidth := 1024 in
  let imgHeight := 1024 in
  match newBitmap hp imgWidth imgHeight with
  | (None, hp) => Done (-1, hp, None)
  | (Some myPicture, hp) =>
      let radiusStart :=
        if imgHeight >? imgWidth then CInt.div imgHeight 2 else CInt.div imgWidth 2 in
      match draw_rings fuel (Z.to_nat radiusStart) myPicture
              (CInt.div imgWidth 2) (CInt.div imgHeight 2) with
      | Done myPicture =>
          match saveBitmap fs "myBitmap.bmp" myPicture stack with
          | Some (prgmStatus, file, myPicture) =>
              Done (prgmStatus, freeBitmap hp (Some myPicture), file)
          | None => Undefined
          end
      | Undefined => Undefined
      | OutOfFuel => OutOfFuel
      end
  end.

End BitmapProgram.

(** ** cString.c: a growable string *)

(** A block of characters is a [list] of bytes; a C string is a block with
    a NUL byte in it.  [strlen]: the number of bytes before the first NUL,
    undefined when the block has none. *)
Fixpoint strlen (s : list Z) : option Z :=
  match s with
  | [] => None
  | c :: rest => if c =? 0 then Some 0 else n ← strlen rest; Some (n + 1)
  end.

(** [malloc(bytes)]: the heap afterwards, or [None] for [NULL]. *)
Definition malloc (bytes : Z) (hp : heap) : option heap :=
  if (bytes <=? CInt.SIZE_MAX) && (bytes <=? free_bytes hp)
  then Some {| free_bytes := free_bytes hp - bytes;
               live_blocks := S (live_blocks hp) |}
  else None.

(** [strdup(s)]: a new block with the characters of [s] and its NUL, or
    [NULL] when there is no memory; undefined when [s] is not a string. *)
Definition strdup (s : list Z) (hp : heap) : option (option (list Z) * heap) :=
  n ← strlen s;
  match malloc (n + 1) hp with
  | Some hp' => Some (Some (take (Z.to_nat (n + 1)) s), hp')
  | None => Some (None, hp)
  end.

(** [realloc(ptr, size)].  The bytes that the block gains are not
    initialised: [junk] gives what they hold.  A [NULL] pointer makes it a
    [malloc]; a size of zero frees the block and returns [NULL], as the
    GNU library does.  On failure the old block is untouched. *)
Definition realloc (ptr : option (list Z)) (size : Z) (junk : nat -> Z)
    (hp : heap) : option (list Z) * heap :=
  let old := match ptr with Some blk => blk | None => [] end in
  let grown := take (Z.to_nat size) old ++
               map (fun i => junk i mod 256)
                   (seq (length old) (Z.to_nat size - length old)) in
  match ptr with
  | None =>
      match malloc size hp with
      | Some hp' => (Some grown, hp')
      | None => (None, hp)
      end
  | Some blk =>
      if size =? 0 then (None, free (Z.of_nat (length blk)) hp)
      else if (size <=? CInt.SIZE_MAX) &&
              (size - Z.of_nat (length blk) <=? free_bytes hp)
      then (Some grown,
            {| free_bytes := free_bytes hp - (size - Z.of_nat (length blk));
               live_blocks := live_blocks hp |})
      else (None, hp)
  end.

(** The [n] bytes that [strncpy(dst, src, n)] writes: the characters of
    [src] up to its NUL, then NUL bytes up to [n]; undefined when it reads
    past the block of [src]. *)
Fixpoint strncpy_bytes (src : list Z) (n : nat) {struct n} : option (list Z) :=
  match n with
  | O => Some []
  | S k =>
      match src with
      | [] => None
      | c :: rest =>
          if c =? 0 then Some (replicate (S k) 0)
          else cs ← strncpy_bytes rest k; Some (c :: cs)
      end
  end.

(** Writing [bytes] into the block [dst] from the offset [off] on:
    undefined when it does not fit. *)
Definition blit (dst : list Z) (off : Z) (bytes : list Z) : option (list Z) :=
  if (0 <=? off) && (off + Z.of_nat (length bytes) <=? Z.of_nat (length dst))
  then Some (take (Z.to_nat off) dst ++ bytes ++
             drop (Z.to_nat off + length bytes) dst)
  else None.

(** [typedef struct cString { char *text; size_t len; } cString;]
    [text] is [None] for [NULL], else the block it points to. *)
Record cString := {
  text : option (list Z);
  len : Z
}.

Definition sizeof_cString : Z := 16.

(** [size_t cString_len(cString *cStr)] *)
Definition cString_len (cStr : cString) : Z :=
  CInt.to_size_t (len cStr - 1).

(** [cString *cString_new()]: the zeroed structure, or [None] for [NULL]. *)
Definition cString_new (hp : heap) : option cString * heap :=
  match calloc sizeof_cString 1 hp with
  | (None, hp) => (None, hp)
  | (Some _, hp) => (Some {| text := None; len := 0 |}, hp)
  end.

(** [int cString_set(cString *string, char *text)]: the status, the
    structure and the heap afterwards.  The block that [string] held is
    not freed. *)
Definition cString_set (string : cString) (text' : list Z) (hp : heap)
  : option (Z * cString * heap) :=
  r ← strdup text' hp;
  match fst r with
  | None => Some (-1, {| text := None; len := len string |}, snd r)
  | Some blk =>
      n ← strlen text';
      let string := {| text := Some blk; len := CInt.to_size_t (n + 1) |} in
      Some (CInt.wrap (len string), string, snd r)
  end.

(** [cString *cString_newStr(char *text)]; the status of [cString_set] is
    not looked at. *)
Definition cString_newStr (text' : list Z) (hp : heap)
  : option (option cString * heap) :=
  match cString_new hp with
  | (None, hp) => Some (None, hp)
  | (Some cStr, hp) =>
      r ← cString_set cStr text' hp;
      Some (Some (snd (fst r)), snd r)
  end.

(** [int cString_append(cString *string1, cString *string2)], for two
    distinct objects: the status, [string1] and the heap afterwards. *)
Definition cString_append (string1 string2 : cString) (junk : nat -> Z)
    (hp : heap) : option (Z * cString * heap) :=
  let str1Len := cString_len string1 in
  let str2Len := cString_len string2 in
  let newLen := CInt.to_size_t (str1Len + str2Len + 1) in
  match realloc (text string1) newLen junk hp with
  | (None, hp) => Some (-1, string1, hp)
  | (Some resizedStr, hp) =>
      src ← text string2;
      bytes ← strncpy_bytes src (Z.to_nat str2Len);
      blk ← blit resizedStr str1Len bytes;
      Some (CInt.wrap newLen, {| text := Some blk; len := newLen |}, hp)
  end.

(** [void cString_free(cString **cStr)]: the pointer left in [*cStr] and
    the heap. *)
Definition cString_free (cStr : option cString) (hp : heap)
  : option cString * heap :=
  match cStr with
  | None => (None, hp)
  | Some cStrPtr =>
      let hp := match text cStrPtr with
                | Some blk => free (Z.of_nat (length blk)) hp
                | None => hp
                end in
      (None, free sizeof_cString hp)
  end.

(** The block of a C string with the given characters. *)
Definition c_string (chars : list Z) : list Z := chars ++ [0].

(** * Part II: properties *)

(** ** Arithmetic within range *)

Lemma wrap_id z : CInt.in_int z -> CInt.wrap z = z.
Proof.
  unfold CInt.in_int, CInt.INT_MIN, CInt.INT_MAX, CInt.wrap. intros H.
  rewrite Z.mod_small by lia. lia.
Qed.

Lemma wrap_in_int z : CInt.in_int (CInt.wrap z).
Proof.
  unfold CInt.in_int, CInt.INT_MIN, CInt.INT_MAX, CInt.wrap.
  pose proof (Z.mod_pos_bound (z + 2147483648) 4294967296). lia.
Qed.

Lemma wrap_small z : -2147483648 <= z <= 2147483647 -> CInt.wrap z = z.
Proof. intros H. apply wrap_id. exact H. Qed.

Lemma ceil_div_least a b :
  0 < b -> a <= ceil_div a b * b /\ (forall q, a <= q * b -> ceil_div a b <= q).
Proof.
  intros Hb. unfold ceil_div.
  pose proof (Z.div_mod a b ltac:(lia)) as Hdm.
  pose proof (Z.mod_pos_bound a b Hb) as Hm.
  destruct (Z.eqb_spec (a mod b) 0) as [E|E]; split; try nia.
Qed.

Lemma stride_value w :
  0 < w -> w * 24 + 31 <= CInt.INT_MAX ->
  BMP_BYTES_PER_LINE w BITCOUNT = (w * 24 + 31) / 32 * 4.
Proof.
  intros Hw Hmax. unfold CInt.INT_MAX in Hmax.
  unfold BMP_BYTES_PER_LINE, BITCOUNT.
  pose proof (Z.div_mod (w * 24 + 31) 32 ltac:(lia)).
  pose proof (Z.mod_pos_bound (w * 24 + 31) 32 ltac:(lia)).
  unfold CInt.mul at 2. rewrite wrap_small by lia.
  unfold CInt.add. rewrite wrap_small by lia.
  unfold CInt.div. rewrite Z.quot_div_nonneg by lia.
  rewrite wrap_small by lia.
  unfold CInt.mul. rewrite wrap_small by lia. reflexivity.
Qed.

Lemma stride_bounds w :
  0 < w -> w * 24 + 31 <= CInt.INT_MAX ->
  w * 3 <= BMP_BYTES_PER_LINE w BITCOUNT <= w * 3 + 3 /\
  BMP_BYTES_PER_LINE w BITCOUNT mod 4 = 0.
Proof.
  intros Hw Hmax. rewrite stride_value by assumption.
  pose proof (Z.div_mod (w * 24 + 31) 32 ltac:(lia)).
  pose proof (Z.mod_pos_bound (w * 24 + 31) 32 ltac:(lia)).
  split; [lia | apply Z.mod_mul; lia].
Qed.

(** C7: for every positive width whose bit count [width*24 + 31] fits an
    [int], the row stride computed by [BMP_BYTES_PER_LINE] equals
    [ceil(width*24/32)*4], is divisible by 4 and is at least [width*3]. *)
Theorem row_stride_ceil (w : Z) :
  0 < w -> w * 24 + 31 <= CInt.INT_MAX ->
  BMP_BYTES_PER_LINE w BITCOUNT = spec_row_stride w /\
  BMP_BYTES_PER_LINE w BITCOUNT mod 4 = 0 /\
  w * 3 <= BMP_BYTES_PER_LINE w BITCOUNT.
Proof.
  intros Hw Hmax.
  destruct (stride_bounds w Hw Hmax) as [Hb Hm].
  split; [| split; [exact Hm | lia]].
  rewrite stride_value by assumption.
  unfold spec_row_stride, ceil_div.
  pose proof (Z.div_mod (w * 24 + 31) 32 ltac:(lia)) as H1.
  pose proof (Z.mod_pos_bound (w * 24 + 31) 32 ltac:(lia)) as H2.
  pose proof (Z.div_mod (w * 24) 32 ltac:(lia)) as H3.
  pose proof (Z.mod_pos_bound (w * 24) 32 ltac:(lia)) as H4.
  destruct (Z.eqb_spec ((w * 24) mod 32) 0); lia.
Qed.

Lemma row_stride_ceil_witness :
  (0 < 5 /\ 5 * 24 + 31 <= CInt.INT_MAX) /\
  BMP_BYTES_PER_LINE 5 BITCOUNT = 16 /\
  BMP_BYTES_PER_LINE 5 BITCOUNT = spec_row_stride 5 /\
  BMP_BYTES_PER_LINE 5 BITCOUNT mod 4 = 0 /\
  5 * 3 <= BMP_BYTES_PER_LINE 5 BITCOUNT.
Proof.
  assert (H1 : 0 < 5) by lia.
  assert (H2 : 5 * 24 + 31 <= CInt.INT_MAX) by (unfold CInt.INT_MAX; lia).
  split; [split; assumption |].
  split; [reflexivity |].
  exact (row_stride_ceil 5 H1 H2).
Defined.

(** ** Colours *)

Lemma land_mul_pow2_low a b n :
  0 <= n -> 0 <= a < 2 ^ n -> Z.land a (b * 2 ^ n) = 0.
Proof.
  intros Hn Ha. apply Z.bits_inj'. intros m Hm.
  rewrite Z.land_spec, Z.bits_0.
  destruct (Z.lt_ge_cases m n) as [Hlt | Hge].
  - rewrite Z.mul_pow2_bits_low by lia. apply andb_false_r.
  - assert (Z.testbit a m = false) as ->; [| reflexivity].
    destruct (Z.eq_dec a 0) as [-> | Hne]; [apply Z.bits_0 |].
    apply Z.bits_above_log2; [lia |].
    apply Z.lt_le_trans with n; [| lia].
    apply Z.log2_lt_pow2; lia.
Qed.

Lemma lor_mul_pow2 a b n :
  0 <= n -> 0 <= a < 2 ^ n -> Z.lor a (b * 2 ^ n) = a + b * 2 ^ n.
Proof.
  intros Hn Ha.
  pose proof (land_mul_pow2_low a b n Hn Ha) as Hl.
  rewrite <- Z.lxor_lor by exact Hl.
  symmetry. apply Z.add_nocarry_lxor. exact Hl.
Qed.

(** With channel values in [0 .. 255] the packed colour is their base-256
    number. *)
Lemma PIXCOLOR_value r g b :
  0 <= r < 256 -> 0 <= g < 256 -> 0 <= b < 256 ->
  PIXCOLOR r g b = r + g * 256 + b * 65536.
Proof.
  intros Hr Hg Hb. unfold PIXCOLOR, CInt.shl.
  rewrite !Z.shiftl_mul_pow2 by lia.
  change (2 ^ 8) with 256. change (2 ^ 16) with 65536.
  rewrite !wrap_small by lia.
  change 256 with (2 ^ 8) at 1.
  rewrite (lor_mul_pow2 r g 8) by (change (2 ^ 8) with 256; lia).
  change 65536 with (2 ^ 16) at 1.
  rewrite lor_mul_pow2 by (change (2 ^ 8) with 256; change (2 ^ 16) with 65536; lia).
  reflexivity.
Qed.

Lemma PIXCOLOR_channels r g b :
  0 <= r < 256 -> 0 <= g < 256 -> 0 <= b < 256 ->
  int_byte (PIXCOLOR r g b) 0 = r /\
  int_byte (PIXCOLOR r g b) 1 = g /\
  int_byte (PIXCOLOR r g b) 2 = b.
Proof.
  intros Hr Hg Hb. rewrite PIXCOLOR_value by assumption.
  unfold int_byte.
  change (256 ^ 0) with 1. change (256 ^ 1) with 256. change (256 ^ 2) with 65536.
  repeat split.
  - rewrite Z.div_1_r. symmetry. apply (Z.mod_unique _ _ (g + b * 256)); lia.
  - assert ((r + g * 256 + b * 65536) / 256 = g + b * 256) as ->.
    { symmetry. apply (Z.div_unique _ _ _ r); lia. }
    symmetry. apply (Z.mod_unique _ _ b); lia.
  - assert ((r + g * 256 + b * 65536) / 65536 = b) as ->.
    { symmetry. apply (Z.div_unique _ _ _ (r + g * 256)); lia. }
    apply Z.mod_small; lia.
Qed.

(** ** Stores into the canvas *)

Lemma arr_set_Some {A : Type} (a a' : list A) i v :
  arr_set a i v = Some a' ->
  0 <= i < Z.of_nat (length a) /\ a' = <[Z.to_nat i := v]> a.
Proof.
  unfold arr_set. intros H.
  destruct (Z.leb_spec 0 i); simpl in H; [| discriminate].
  destruct (Z.ltb_spec i (Z.of_nat (length a))); simpl in H; [| discriminate].
  injection H as <-. split; [lia | reflexivity].
Qed.

Lemma arr_set_in_range {A : Type} (a : list A) i v :
  0 <= i < Z.of_nat (length a) -> arr_set a i v = Some (<[Z.to_nat i := v]> a).
Proof.
  intros H. unfold arr_set.
  destruct (Z.leb_spec 0 i); [| lia].
  destruct (Z.ltb_spec i (Z.of_nat (length a))); [| lia].
  reflexivity.
Qed.

Lemma arr_get_set_eq {A : Type} (a a' : list A) i v :
  arr_set a i v = Some a' -> arr_get a' i = Some v.
Proof.
  intros H. apply arr_set_Some in H as [Hi ->].
  unfold arr_get. destruct (Z.leb_spec 0 i); [| lia].
  apply list_lookup_insert_eq. lia.
Qed.

Lemma arr_get_set_ne {A : Type} (a a' : list A) i j v :
  arr_set a i v = Some a' -> i <> j -> arr_get a' j = arr_get a j.
Proof.
  intros H Hne. apply arr_set_Some in H as [Hi ->].
  unfold arr_get. destruct (Z.leb_spec 0 j); [| reflexivity].
  apply list_lookup_insert_ne. lia.
Qed.

Lemma putPixel_Some b x y red green blue b' :
  putPixel b x y red green blue = Some b' ->
  header b' = header b /\
  arr_set (pixelBuffer b) (GET_PIXEL_INDEX x y (width (header b)))
          (PIXCOLOR red green blue) = Some (pixelBuffer b').
Proof.
  unfold putPixel. intros H.
  destruct (arr_set _ _ _) as [buf |]; simpl in H; [| discriminate].
  injection H as <-. split; reflexivity.
Qed.

Lemma putPixel_cell_eq b x y red green blue b' :
  putPixel b x y red green blue = Some b' ->
  cell b' x y = Some (PIXCOLOR red green blue).
Proof.
  intros H. apply putPixel_Some in H as [Hh Hs].
  unfold cell. rewrite Hh. eapply arr_get_set_eq. exact Hs.
Qed.

(** A store of the colour [c] keeps every cell that already holds [c]. *)
Lemma putPixel_cell_keep b x y red green blue b' x0 y0 :
  putPixel b x y red green blue = Some b' ->
  cell b x0 y0 = Some (PIXCOLOR red green blue) ->
  cell b' x0 y0 = Some (PIXCOLOR red green blue).
Proof.
  intros H Hc. apply putPixel_Some in H as [Hh Hs].
  unfold cell in *. rewrite Hh.
  destruct (Z.eq_dec (GET_PIXEL_INDEX x y (width (header b)))
                     (GET_PIXEL_INDEX x0 y0 (width (header b)))) as [E | E].
  - rewrite <- E. eapply arr_get_set_eq. exact Hs.
  - rewrite (arr_get_set_ne _ _ _ _ _ Hs E). exact Hc.
Qed.

Lemma write_points_keep pts : forall b red green blue b' x0 y0,
  write_points b pts red green blue = Some b' ->
  cell b x0 y0 = Some (PIXCOLOR red green blue) ->
  cell b' x0 y0 = Some (PIXCOLOR red green blue).
Proof.
  induction pts as [| p rest IH]; intros b red green blue b' x0 y0 H Hc; simpl in H.
  - injection H as <-. exact Hc.
  - destruct (putPixel b (fst p) (snd p) red green blue) as [b1 |] eqn:E;
      simpl in H; [| discriminate].
    eapply IH; [exact H |]. eapply putPixel_cell_keep; eassumption.
Qed.

(** After a list of points has been written with one colour, every one of
    them holds it. *)
Lemma write_points_cells pts : forall b red green blue b',
  write_points b pts red green blue = Some b' ->
  Forall (fun p => cell b' (fst p) (snd p) = Some (PIXCOLOR red green blue)) pts.
Proof.
  induction pts as [| p rest IH]; intros b red green blue b' H; simpl in H.
  - constructor.
  - destruct (putPixel b (fst p) (snd p) red green blue) as [b1 |] eqn:E;
      simpl in H; [| discriminate].
    constructor; [| eapply IH; exact H].
    eapply write_points_keep; [exact H |].
    eapply putPixel_cell_eq. exact E.
Qed.

Lemma write_points_app pts1 : forall b pts2 red green blue,
  write_points b (pts1 ++ pts2) red green blue =
  b1 ← write_points b pts1 red green blue; write_points b1 pts2 red green blue.
Proof.
  induction pts1 as [| p rest IH]; intros b pts2 red green blue; simpl.
  - reflexivity.
  - destruct (putPixel b (fst p) (snd p) red green blue) as [b1 |]; simpl;
      [apply IH | reflexivity].
Qed.

(** [drawCircle] is one emission step. *)
Lemma drawCircle_emission b xc yc x y :
  drawCircle b xc yc x y = emission b xc yc x y.
Proof.
  unfold drawCircle, emission, octants, CInt.rem. simpl.
  repeat (match goal with
          | |- context [putPixel ?b ?px ?py ?r ?g ?bl ≫= _] =>
              destruct (putPixel b px py r g bl); simpl; [| reflexivity]
          end).
  reflexivity.
Qed.

Lemma emission_colour_channels x y :
  0 <= x -> 0 <= y ->
  let c := PIXCOLOR (Z.rem x 255) (Z.rem y 255) (CInt.sub 255 (Z.rem x 255)) in
  int_byte c 0 = x mod 255 /\
  int_byte c 1 = y mod 255 /\
  int_byte c 2 = 255 - x mod 255.
Proof.
  intros Hx Hy.
  rewrite !Z.rem_mod_nonneg by lia.
  pose proof (Z.mod_pos_bound x 255 ltac:(lia)) as Bx.
  pose proof (Z.mod_pos_bound y 255 ltac:(lia)) as By.
  unfold CInt.sub. rewrite wrap_small by lia.
  apply PIXCOLOR_channels; lia.
Qed.

(** C1 (as the code has it): in an emission step with local coordinates
    [(x, y)], each of the eight points written holds the one packed colour
    [PIXCOLOR (x % 255) (y % 255) (255 - x % 255)] afterwards; for
    [x, y >= 0] its three channels are [x mod 255], [y mod 255] and
    [255 - x mod 255]. The modulus is 255, not 256. *)
Theorem drawCircle_colour (b : bitmapData) (xc yc x y : Z) (b' : bitmapData) :
  drawCircle b xc yc x y = Some b' ->
  let c := PIXCOLOR (Z.rem x 255) (Z.rem y 255) (CInt.sub 255 (Z.rem x 255)) in
  Forall (fun p => cell b' (fst p) (snd p) = Some c) (octants xc yc x y) /\
  length (octants xc yc x y) = 8%nat /\
  (0 <= x -> 0 <= y ->
   int_byte c 0 = x mod 255 /\ int_byte c 1 = y mod 255 /\
   int_byte c 2 = 255 - x mod 255).
Proof.
  intros H c. rewrite drawCircle_emission in H. unfold emission in H.
  split; [| split].
  - eapply write_points_cells. exact H.
  - reflexivity.
  - intros Hx Hy. apply emission_colour_channels; assumption.
Qed.

Lemma drawCircle_colour_witness :
  exists b',
    drawCircle (blank 5 5) 2 2 1 2 = Some b' /\
    (let c := PIXCOLOR (Z.rem 1 255) (Z.rem 2 255) (CInt.sub 255 (Z.rem 1 255)) in
     Forall (fun p => cell b' (fst p) (snd p) = Some c) (octants 2 2 1 2) /\
     length (octants 2 2 1 2) = 8%nat /\
     (0 <= 1 -> 0 <= 2 ->
      int_byte c 0 = 1 mod 255 /\ int_byte c 1 = 2 mod 255 /\
      int_byte c 2 = 255 - 1 mod 255)).
Proof.
  eexists. split.
  - vm_compute. reflexivity.
  - apply (drawCircle_colour (blank 5 5) 2 2 1 2). vm_compute. reflexivity.
Defined.

(** C1 as stated fails: the first emission step of a circle of radius 255
    has local coordinates [(0, 255)]; the point [(xc + 0, yc + 255)] it
    writes gets channel 1 equal to [255 % 255 = 0], not [255 mod 256 = 255]. *)
Lemma drawCircle_colour_not_mod_256 :
  let x := 0 in
  let y := 255 in
  channel_after (drawCircle (blank 511 511) 255 255 x y) (255 + x) (255 + y) 1
  <> Some (y mod 256).
Proof. vm_compute. discriminate. Qed.

(** ** Points on the canvas *)

Lemma pixel_index_in_canvas b x y :
  canvas_shape b -> in_canvas b x y ->
  GET_PIXEL_INDEX x y (width (header b)) = x + y * width (header b) /\
  0 <= x + y * width (header b) < Z.of_nat (length (pixelBuffer b)).
Proof.
  unfold canvas_shape, in_canvas, CInt.INT_MAX.
  intros (Hw & Hh & Hm & Hl) (Hx & Hy).
  assert (0 <= y * width (header b) <= (height (header b) - 1) * width (header b)) by nia.
  assert (x + y * width (header b) < width (header b) * height (header b)) by nia.
  split.
  - unfold GET_PIXEL_INDEX, CInt.add, CInt.mul.
    rewrite (wrap_small (y * _)) by lia. apply wrap_small. lia.
  - rewrite Hl. lia.
Qed.

Lemma putPixel_in_canvas b x y red green blue :
  canvas_shape b -> in_canvas b x y ->
  exists b', putPixel b x y red green blue = Some b' /\
             canvas_shape b' /\ header b' = header b.
Proof.
  intros Hs Hi. destruct (pixel_index_in_canvas b x y Hs Hi) as [Hidx Hr].
  unfold putPixel. rewrite Hidx, arr_set_in_range by exact Hr. simpl.
  eexists. split; [reflexivity |]. split; [| reflexivity].
  unfold canvas_shape in *. simpl. rewrite length_insert. exact Hs.
Qed.

Lemma write_points_in_canvas pts : forall b red green blue,
  canvas_shape b ->
  Forall (fun p => in_canvas b (fst p) (snd p)) pts ->
  exists b', write_points b pts red green blue = Some b' /\
             canvas_shape b' /\ header b' = header b.
Proof.
  induction pts as [| p rest IH]; intros b red green blue Hs Hall; simpl.
  - eexists. split; [reflexivity |]. split; [exact Hs | reflexivity].
  - inversion Hall as [| ? ? Hp Hrest]; subst.
    destruct (putPixel_in_canvas b (fst p) (snd p) red green blue Hs Hp)
      as (b1 & E1 & Hs1 & Hh1).
    rewrite E1. simpl.
    destruct (IH b1 red green blue Hs1) as (b2 & E2 & Hs2 & Hh2).
    { eapply Forall_impl; [exact Hrest |]. intros q Hq.
      unfold in_canvas in *. rewrite Hh1. exact Hq. }
    exists b2. split; [exact E2 |]. split; [exact Hs2 | congruence].
Qed.

Lemma octants_exact xc yc x y :
  emit_in_range xc yc x y -> octants xc yc x y = symmetric_points xc yc x y.
Proof.
  unfold emit_in_range, symmetric_points, octants. intros H.
  repeat (match goal with
          | H : Forall _ (_ :: _) |- _ =>
              let Hp := fresh "Hp" in
              apply Forall_cons_1 in H as [Hp H];
              simpl in Hp; destruct Hp
          end).
  unfold CInt.add, CInt.sub.
  repeat (rewrite wrap_id by assumption). reflexivity.
Qed.

(** ** The loop of the rasterizer *)

(** A pass of the loop, entered with [y >= x], as two emission steps. *)
Lemma circleBres_loop_unfold fuel b xc yc x y d :
  x <= y ->
  let x' := CInt.add x 1 in
  let y' := if d >? 0 then CInt.sub y 1 else y in
  let d' := if d >? 0
            then CInt.add (CInt.add d (CInt.mul 4 (CInt.sub x' y'))) 10
            else CInt.add (CInt.add d (CInt.mul 4 x')) 6 in
  circleBres_loop (S fuel) b xc yc x y d =
    match b1 ← emission b xc yc x y; emission b1 xc yc x' y' with
    | Some b2 => circleBres_loop fuel b2 xc yc x' y' d'
    | None => Undefined
    end.
Proof.
  intros Hxy x' y' d'.
  simpl. destruct (Z.geb_spec y x) as [_ | Hlt]; [| lia].
  rewrite drawCircle_emission.
  destruct (emission b xc yc x y) as [b1 |]; simpl; [| reflexivity].
  unfold bres_update. subst x' y' d'.
  destruct (d >? 0); rewrite drawCircle_emission;
    destruct (emission b1 _ _ _ _); reflexivity.
Qed.

(** C5 (as the code has it): for radius 0 and a centre with its eight
    neighbours on the canvas, [circleBres] ends after exactly one pass of
    its loop.  The pass has two emission steps: the first, at [(0, 0)],
    writes eight coincident points at the centre; the second, at
    [(1, -1)], writes eight points on the four diagonal neighbours of the
    centre.  After the pass the state is [(1, -1, 21)] and the loop
    condition fails. *)
Theorem circleBres_radius_0 (fuel : nat) (b : bitmapData) (xc yc : Z) :
  canvas_shape b ->
  1 <= xc < width (header b) - 1 ->
  1 <= yc < height (header b) - 1 ->
  exists b1 b2,
    write_points b (replicate 8 (xc, yc)) 0 0 255 = Some b1 /\
    write_points b1
      [ (xc + 1, yc - 1); (xc - 1, yc - 1); (xc + 1, yc + 1); (xc - 1, yc + 1);
        (xc - 1, yc + 1); (xc + 1, yc + 1); (xc - 1, yc - 1); (xc + 1, yc - 1) ]
      1 (-1) 254 = Some b2 /\
    circleBres (S (S fuel)) b xc yc 0 = Done b2 /\
    bres_update 0 0 (CInt.sub 3 (CInt.mul 2 0)) = (1, -1, 21) /\
    (0 >=? 0) = true /\ (-1 >=? 1) = false.
Proof.
  intros Hs Hx Hy.
  assert (Hb := Hs). destruct Hb as (Hw & Hh & Hm & _). unfold CInt.INT_MAX in Hm.
  assert (Hwb : width (header b) <= 2147483647) by nia.
  assert (Hhb : height (header b) <= 2147483647) by nia.
  destruct (write_points_in_canvas (replicate 8 (xc, yc)) b 0 0 255 Hs)
    as (b1 & E1 & Hs1 & Hh1).
  { simpl. repeat constructor; simpl; lia. }
  destruct (write_points_in_canvas
              [ (xc + 1, yc - 1); (xc - 1, yc - 1); (xc + 1, yc + 1); (xc - 1, yc + 1);
                (xc - 1, yc + 1); (xc + 1, yc + 1); (xc - 1, yc - 1); (xc + 1, yc - 1) ]
              b1 1 (-1) 254 Hs1) as (b2 & E2 & Hs2 & Hh2).
  { unfold in_canvas. rewrite Hh1. repeat constructor; simpl; lia. }
  exists b1, b2. split; [exact E1 |]. split; [exact E2 |].
  split; [| repeat split; reflexivity].
  unfold circleBres.
  change (CInt.sub 3 (CInt.mul 2 0)) with 3.
  rewrite (circleBres_loop_unfold (S fuel) b xc yc 0 0 3) by lia.
  change (3 >? 0) with true. cbv iota.
  change (CInt.add 0 1) with 1. change (CInt.sub 0 1) with (-1).
  assert (Ee1 : emission b xc yc 0 0 = Some b1).
  { unfold emission, octants, CInt.add, CInt.sub.
    rewrite !Z.add_0_r, !Z.sub_0_r, !wrap_small by lia. exact E1. }
  assert (Ee2 : emission b1 xc yc 1 (-1) = Some b2).
  { unfold emission, octants, CInt.add, CInt.sub.
    change (xc - -1) with (xc - (-1)). change (yc - -1) with (yc - (-1)).
    replace (xc - (-1)) with (xc + 1) by lia.
    replace (yc - (-1)) with (yc + 1) by lia.
    replace (xc + -1) with (xc - 1) by lia.
    replace (yc + -1) with (yc - 1) by lia.
    rewrite !wrap_small by lia. exact E2. }
  rewrite Ee1. simpl. rewrite Ee2. reflexivity.
Qed.

Lemma circleBres_radius_0_witness :
  (canvas_shape (blank 11 11) /\ 1 <= 5 < 11 - 1) /\
  exists b1 b2,
    write_points (blank 11 11) (replicate 8 (5, 5)) 0 0 255 = Some b1 /\
    write_points b1
      [ (6, 4); (4, 4); (6, 6); (4, 6); (4, 6); (6, 6); (4, 4); (6, 4) ]
      1 (-1) 254 = Some b2 /\
    circleBres 2 (blank 11 11) 5 5 0 = Done b2 /\
    bres_update 0 0 (CInt.sub 3 (CInt.mul 2 0)) = (1, -1, 21) /\
    (0 >=? 0) = true /\ (-1 >=? 1) = false.
Proof.
  assert (Hs : canvas_shape (blank 11 11)).
  { unfold canvas_shape, CInt.INT_MAX. simpl. repeat split; try lia. }
  assert (Hc : 1 <= 5 < 11 - 1) by lia.
  split; [split; assumption |].
  exact (circleBres_radius_0 0 (blank 11 11) 5 5 Hs Hc Hc).
Defined.

(** C5 as stated fails: on an 11 x 11 canvas, [circleBres] at centre
    [(5, 5)] with radius 0 also changes the cell at [(6, 6)], which is not
    the centre: its writes are not only the eight coincident points. *)
Lemma circleBres_radius_0_off_centre :
  exists b2,
    circleBres 2 (blank 11 11) 5 5 0 = Done b2 /\
    cell b2 6 6 <> cell (blank 11 11) 6 6 /\
    GET_PIXEL_INDEX 6 6 11 <> GET_PIXEL_INDEX 5 5 11.
Proof.
  eexists. split; [vm_compute; reflexivity |].
  split; vm_compute; discriminate.
Qed.

(** ** Termination of the loop *)

Lemma bres_inv_init r :
  CInt.in_int r -> bres_inv 0 r (CInt.sub 3 (CInt.mul 2 r)).
Proof.
  unfold CInt.in_int, bres_inv. intros Hr.
  split; [lia |]. split; [exact Hr |].
  destruct (Z.eq_dec r CInt.INT_MAX) as [-> | Hne].
  - right. split; [reflexivity |]. vm_compute. reflexivity.
  - left. lia.
Qed.

(** One pass from a state of the invariant that satisfies the loop
    condition: [x] grows by one, [y] does not grow, the invariant holds
    again. *)
Lemma bres_update_step x y d :
  bres_inv x y d -> x <= y ->
  exists x' y' d',
    bres_update x y d = (x', y', d') /\
    x' = x + 1 /\ (y' = y \/ y' = y - 1) /\ bres_inv x' y' d'.
Proof.
  unfold bres_inv, CInt.INT_MIN, CInt.INT_MAX.
  intros (Hx & Hy & Hd) Hxy. unfold bres_update.
  assert (Hx1 : CInt.add x 1 = x + 1).
  { unfold CInt.add. apply wrap_small.
    destruct Hd as [Hd | [-> _]]; lia. }
  rewrite Hx1.
  destruct (Z.gtb_spec d 0) as [Hpos | Hneg].
  - assert (Hy1 : CInt.sub y 1 = y - 1).
    { unfold CInt.sub. apply wrap_small. lia. }
    rewrite Hy1. eexists _, _, _. split; [reflexivity |].
    split; [reflexivity |]. split; [right; reflexivity |].
    split; [lia |]. split; [lia |]. left. lia.
  - eexists _, _, _. split; [reflexivity |].
    split; [reflexivity |]. split; [left; reflexivity |].
    split; [lia |]. split; [lia |]. left.
    destruct Hd as [Hd | [_ Hd]]; lia.
Qed.

Lemma bres_reach_inv r x y d :
  CInt.in_int r -> bres_reach r x y d -> bres_inv x y d.
Proof.
  intros Hr H. induction H as [| x y d x' y' d' _ IH Hxy Hu].
  - apply bres_inv_init. exact Hr.
  - destruct (bres_update_step x y d IH Hxy) as (x1 & y1 & d1 & E & _ & _ & Hinv).
    rewrite Hu in E. injection E as <- <- <-. exact Hinv.
Qed.

Lemma circleBres_loop_fuel fuel : forall b xc yc x y d,
  bres_inv x y d ->
  (Z.to_nat (y - x + 1) < fuel)%nat ->
  circleBres_loop fuel b xc yc x y d <> OutOfFuel.
Proof.
  induction fuel as [| fuel IH]; intros b xc yc x y d Hinv Hfuel; [lia |].
  simpl. destruct (Z.geb_spec y x) as [Hge | Hlt]; [| discriminate].
  destruct (drawCircle b xc yc x y) as [b1 |]; [| discriminate].
  destruct (bres_update_step x y d Hinv ltac:(lia))
    as (x' & y' & d' & E & Ex & Ey & Hinv').
  rewrite E.
  destruct (drawCircle b1 xc yc x' y') as [b2 |]; [| discriminate].
  apply IH; [exact Hinv' |]. lia.
Qed.

(** An emission step whose local coordinates are at most [m] in absolute
    value, around a centre at least [m] away from the edges, stays on the
    canvas and is defined. *)
Lemma emission_in_canvas b xc yc x y m :
  canvas_shape b ->
  - m <= x <= m -> - m <= y <= m ->
  m <= xc < width (header b) - m ->
  m <= yc < height (header b) - m ->
  exists b', emission b xc yc x y = Some b' /\
             canvas_shape b' /\ header b' = header b.
Proof.
  intros Hs Hx Hy Hxc Hyc.
  assert (Hb := Hs). destruct Hb as (Hw & Hh & Hm & _). unfold CInt.INT_MAX in Hm.
  assert (Hwb : width (header b) <= 2147483647) by nia.
  assert (Hhb : height (header b) <= 2147483647) by nia.
  unfold emission. rewrite octants_exact.
  - apply write_points_in_canvas; [exact Hs |].
    unfold symmetric_points, in_canvas. repeat constructor; simpl; lia.
  - unfold emit_in_range, symmetric_points, CInt.in_int, CInt.INT_MIN, CInt.INT_MAX.
    repeat constructor; simpl; lia.
Qed.

Lemma drawCircle_in_canvas b xc yc x y m :
  canvas_shape b ->
  - m <= x <= m -> - m <= y <= m ->
  m <= xc < width (header b) - m ->
  m <= yc < height (header b) - m ->
  exists b', drawCircle b xc yc x y = Some b' /\
             canvas_shape b' /\ header b' = header b.
Proof. rewrite drawCircle_emission. apply emission_in_canvas. Qed.

(** With a margin of [r + 1] around the centre the whole run stays on the
    canvas: it is defined and ends. *)
Lemma circleBres_loop_in_canvas r xc yc fuel : forall b x y d,
  canvas_shape b ->
  r + 1 <= xc < width (header b) - (r + 1) ->
  r + 1 <= yc < height (header b) - (r + 1) ->
  bres_inv x y d -> y <= r ->
  (Z.to_nat (y - x + 1) < fuel)%nat ->
  exists b', circleBres_loop fuel b xc yc x y d = Done b' /\
             canvas_shape b' /\ header b' = header b.
Proof.
  induction fuel as [| fuel IH]; intros b x y d Hs Hxc Hyc Hinv Hyr Hfuel; [lia |].
  simpl. destruct (Z.geb_spec y x) as [Hge | Hlt].
  2: { exists b. split; [reflexivity |]. split; [exact Hs | reflexivity]. }
  assert (Hx0 : 0 <= x) by apply Hinv.
  destruct (drawCircle_in_canvas b xc yc x y (r + 1) Hs) as (b1 & E1 & Hs1 & Hh1);
    try lia.
  rewrite E1.
  destruct (bres_update_step x y d Hinv ltac:(lia))
    as (x' & y' & d' & E & Ex & Ey & Hinv').
  rewrite E.
  destruct (drawCircle_in_canvas b1 xc yc x' y' (r + 1) Hs1) as (b2 & E2 & Hs2 & Hh2);
    try (rewrite ?Hh1; lia).
  rewrite E2.
  destruct (IH b2 x' y' d' Hs2) as (b3 & E3 & Hs3 & Hh3);
    try (rewrite ?Hh2, ?Hh1; lia); try assumption.
  exists b3. split; [exact E3 |]. split; [exact Hs3 | congruence].
Qed.

(** C10: for every [int] radius [r], positive or not, the loop of
    [circleBres] terminates: with more fuel than [r + 1] the run never
    stops for lack of fuel.  In every pass, from whatever state the loop
    has reached, [x] grows by one and [y] does not grow, so [y - x]
    strictly decreases. *)
Theorem circleBres_terminates (r : Z) :
  CInt.in_int r ->
  (forall fuel b xc yc,
      (Z.to_nat (r + 1) < fuel)%nat -> circleBres fuel b xc yc r <> OutOfFuel) /\
  (forall fuel b xc yc,
      (Z.to_nat (r + 1) < fuel)%nat ->
      canvas_shape b ->
      r + 1 <= xc < width (header b) - (r + 1) ->
      r + 1 <= yc < height (header b) - (r + 1) ->
      exists b', circleBres fuel b xc yc r = Done b') /\
  (forall x y d x' y' d',
      bres_reach r x y d -> x <= y -> bres_update x y d = (x', y', d') ->
      x' = x + 1 /\ y' <= y /\ y' - x' < y - x).
Proof.
  intros Hr. split; [| split].
  - intros fuel b xc yc Hfuel. unfold circleBres.
    apply circleBres_loop_fuel; [apply bres_inv_init; exact Hr |].
    rewrite Z.sub_0_r. exact Hfuel.
  - intros fuel b xc yc Hfuel Hs Hxc Hyc. unfold circleBres.
    destruct (circleBres_loop_in_canvas r xc yc fuel b 0 r
                (CInt.sub 3 (CInt.mul 2 r)) Hs Hxc Hyc) as (b' & E & _).
    + apply bres_inv_init. exact Hr.
    + lia.
    + rewrite Z.sub_0_r. exact Hfuel.
    + exists b'. exact E.
  - intros x y d x' y' d' Hreach Hxy Hu.
    pose proof (bres_reach_inv r x y d Hr Hreach) as Hinv.
    destruct (bres_update_step x y d Hinv Hxy) as (x1 & y1 & d1 & E & Ex & Ey & _).
    rewrite Hu in E. injection E as <- <- <-. lia.
Qed.

Lemma circleBres_terminates_witness :
  CInt.in_int 3 /\
  circleBres 5 (blank 9 9) 4 4 3 <> OutOfFuel /\
  (exists b', circleBres 5 (blank 9 9) 4 4 3 = Done b') /\
  (forall x y d x' y' d',
      bres_reach 3 x y d -> x <= y -> bres_update x y d = (x', y', d') ->
      x' = x + 1 /\ y' <= y /\ y' - x' < y - x).
Proof.
  assert (H : CInt.in_int 3) by (unfold CInt.in_int, CInt.INT_MIN, CInt.INT_MAX; lia).
  assert (Hf : (Z.to_nat (3 + 1) < 5)%nat) by (simpl; lia).
  assert (Hs : canvas_shape (blank 9 9)).
  { unfold canvas_shape, CInt.INT_MAX. simpl. repeat split; lia. }
  split; [exact H |]. split; [| split].
  - exact (proj1 (circleBres_terminates 3 H) 5%nat (blank 9 9) 4 4 Hf).
  - apply (proj1 (proj2 (circleBres_terminates 3 H)) 5%nat (blank 9 9) 4 4 Hf Hs);
      simpl; lia.
  - exact (proj2 (proj2 (circleBres_terminates 3 H))).
Defined.

(** ** The stream *)

Lemma fwrite_fits data size nmemb out :
  length data = Z.to_nat (size * nmemb) ->
  (length data <= froom out)%nat ->
  snd (fwrite data size nmemb out) =
    {| fbytes := fbytes out ++ data; froom := (froom out - length data)%nat |}.
Proof.
  intros Hl Hr. unfold fwrite. simpl. rewrite <- Hl.
  rewrite Nat.min_l by exact Hr. rewrite take_ge by lia. reflexivity.
Qed.

Lemma write_all_fits rows : forall n out,
  Forall (fun row => length row = Z.to_nat n) rows ->
  (length rows * Z.to_nat n <= froom out)%nat ->
  fbytes (write_all rows n out) = fbytes out ++ concat rows /\
  froom (write_all rows n out) = (froom out - length rows * Z.to_nat n)%nat.
Proof.
  induction rows as [| row rest IH]; intros n out Hall Hroom.
  - simpl. rewrite app_nil_r. split; [reflexivity | lia].
  - inversion Hall as [| ? ? Hrow Hrest]; subst. simpl in Hroom.
    change (write_all (row :: rest) n out)
      with (write_all rest n (snd (fwrite row 1 n out))).
    rewrite fwrite_fits by (rewrite ?Z.mul_1_l; lia).
    destruct (IH n {| fbytes := fbytes out ++ row;
                      froom := (froom out - length row)%nat |} Hrest) as [Hb Hf].
    { simpl. lia. }
    rewrite Hb, Hf. simpl. rewrite app_assoc. split; [reflexivity | lia].
Qed.

(** ** Filling the line buffer *)

Lemma arr_set_middle {A : Type} (pre : list A) a post i v :
  i = Z.of_nat (length pre) ->
  arr_set (pre ++ a :: post) i v = Some (pre ++ v :: post).
Proof.
  intros ->. rewrite arr_set_in_range.
  - rewrite Nat2Z.id, insert_app_r_alt by lia.
    rewrite Nat.sub_diag. reflexivity.
  - rewrite length_app. simpl. lia.
Qed.

Lemma pack_pixel_app b y x c pre a0 a1 a2 post :
  arr_get (pixelBuffer b) (GET_PIXEL_INDEX x y (width (header b))) = Some c ->
  0 <= x -> 3 * x + 2 <= CInt.INT_MAX ->
  length pre = Z.to_nat (3 * x) ->
  pack_pixel b y x (pre ++ a0 :: a1 :: a2 :: post) =
    Some (pre ++ pixel_bytes c ++ post).
Proof.
  unfold CInt.INT_MAX. intros Hc Hx Hmax Hpre.
  unfold pack_pixel. rewrite Hc. simpl.
  unfold CInt.mul, CInt.add. rewrite (wrap_small (x * 3)) by lia.
  rewrite !wrap_small by lia.
  rewrite (arr_set_middle pre a0) by lia. simpl.
  replace (pre ++ int_byte c 0 :: a1 :: a2 :: post)
    with ((pre ++ [int_byte c 0]) ++ a1 :: a2 :: post)
    by (rewrite <- app_assoc; reflexivity).
  rewrite arr_set_middle by (rewrite length_app; simpl; lia). simpl.
  replace ((pre ++ [int_byte c 0]) ++ int_byte c 1 :: a2 :: post)
    with ((pre ++ [int_byte c 0; int_byte c 1]) ++ a2 :: post)
    by (rewrite <- !app_assoc; reflexivity).
  rewrite arr_set_middle by (rewrite length_app; simpl; lia).
  rewrite <- app_assoc. reflexivity.
Qed.

Lemma fill_line b y (cs : list Z) : forall x pre mid post,
  0 <= x -> 3 * (x + Z.of_nat (length cs)) <= CInt.INT_MAX ->
  length pre = Z.to_nat (3 * x) ->
  length mid = (3 * length cs)%nat ->
  (forall i c, cs !! i = Some c ->
     arr_get (pixelBuffer b)
       (GET_PIXEL_INDEX (x + Z.of_nat i) y (width (header b))) = Some c) ->
  for_loop (seqZ x (Z.of_nat (length cs))) (pack_pixel b y) (pre ++ mid ++ post) =
    Some (pre ++ concat (map pixel_bytes cs) ++ post).
Proof.
  induction cs as [| c cs IH]; intros x pre mid post Hx Hmax Hpre Hmid Hget.
  - destruct mid; [| discriminate]. reflexivity.
  - destruct mid as [| a0 [| a1 [| a2 mid]]]; try (simpl in Hmid; lia).
    simpl in Hmid. simpl length in *.
    rewrite seqZ_cons by lia. cbn [for_loop app].
    rewrite (pack_pixel_app b y x c) by
      (try (rewrite <- (Z.add_0_r x); apply (Hget 0%nat); reflexivity); lia).
    simpl.
    replace (Z.pred (Z.of_nat (S (length cs)))) with (Z.of_nat (length cs)) by lia.
    replace (pre ++ int_byte c 0 :: int_byte c 1 :: int_byte c 2 :: mid ++ post)
      with ((pre ++ pixel_bytes c) ++ mid ++ post)
      by (rewrite <- app_assoc; reflexivity).
    rewrite IH.
    + rewrite <- app_assoc. reflexivity.
    + lia.
    + lia.
    + rewrite length_app. simpl. lia.
    + lia.
    + intros i c' Hi. replace (Z.succ x + Z.of_nat i) with (x + Z.of_nat (S i)) by lia.
      apply Hget. exact Hi.
Qed.

(** ** Rows of the canvas *)

Lemma row_cells_length b y :
  canvas_shape b -> 0 <= y < height (header b) ->
  length (row_cells b y) = Z.to_nat (width (header b)).
Proof.
  unfold canvas_shape, row_cells. intros (Hw & Hh & _ & Hl) Hy.
  rewrite length_take, length_drop, Hl.
  assert (y * width (header b) + width (header b)
          <= width (header b) * height (header b)) by nia.
  assert (0 <= y * width (header b)) by nia.
  lia.
Qed.

Lemma row_cells_lookup b y i c :
  canvas_shape b -> 0 <= y < height (header b) ->
  row_cells b y !! i = Some c ->
  arr_get (pixelBuffer b)
    (GET_PIXEL_INDEX (Z.of_nat i) y (width (header b))) = Some c.
Proof.
  intros Hs Hy Hc. unfold row_cells in Hc.
  apply lookup_take_Some in Hc as [Hc Hi]. rewrite lookup_drop in Hc.
  destruct (pixel_index_in_canvas b (Z.of_nat i) y Hs) as [Hidx Hr].
  { unfold in_canvas. lia. }
  rewrite Hidx. unfold arr_get.
  destruct (Z.leb_spec 0 (Z.of_nat i + y * width (header b))); [| lia].
  rewrite <- Hc. f_equal.
  destruct Hs as (Hw & _). assert (0 <= y * width (header b)) by nia. lia.
Qed.

Lemma length_pixel_rows (cs : list Z) :
  length (concat (map pixel_bytes cs)) = (3 * length cs)%nat.
Proof.
  induction cs as [| c cs IH]; simpl; [reflexivity |]. rewrite IH. lia.
Qed.

Lemma length_scanline b y :
  canvas_shape b -> 0 <= y < height (header b) ->
  length (scanline b y) = Z.to_nat (3 * width (header b)).
Proof.
  intros Hs Hy. unfold scanline.
  rewrite length_pixel_rows, row_cells_length by assumption.
  destruct Hs as (Hw & _). lia.
Qed.

(** The column loop on row [y]: the pixel bytes of the row, then what the
    line buffer held beyond them. *)
Lemma scan_row b y lb :
  canvas_shape b -> 3 * width (header b) <= CInt.INT_MAX ->
  0 <= y < height (header b) ->
  (Z.to_nat (3 * width (header b)) <= length lb)%nat ->
  for_loop (seqZ 0 (width (header b))) (pack_pixel b y) lb =
    Some (scanline b y ++ padding b lb).
Proof.
  intros Hs Hmax Hy Hlb.
  pose proof (row_cells_length b y Hs Hy) as Hlen.
  assert (Hw : 0 < width (header b)) by apply Hs.
  rewrite <- (take_drop (Z.to_nat (3 * width (header b))) lb) at 1.
  replace (width (header b)) with (Z.of_nat (length (row_cells b y))) at 1 by lia.
  apply (fill_line b y (row_cells b y) 0 []).
  - lia.
  - lia.
  - reflexivity.
  - rewrite length_take. lia.
  - intros i c Hc. rewrite Z.add_0_l. apply row_cells_lookup; assumption.
Qed.

Lemma write_row_spec b stride y lb out :
  canvas_shape b -> 3 * width (header b) <= CInt.INT_MAX ->
  0 <= y < height (header b) ->
  (Z.to_nat (3 * width (header b)) <= length lb)%nat ->
  write_row b stride y (lb, out) =
    Some (scanline b y ++ padding b lb,
          snd (fwrite (scanline b y ++ padding b lb) 1 stride out)).
Proof.
  intros Hs Hmax Hy Hlb. unfold write_row. cbn [fst snd].
  rewrite scan_row by assumption. reflexivity.
Qed.

Lemma write_rows_spec b stride :
  canvas_shape b ->
  3 * width (header b) <= stride <= CInt.INT_MAX ->
  forall n lb out,
    Z.of_nat n <= height (header b) ->
    length lb = Z.to_nat stride ->
    exists lb',
      for_loop (countdown n) (write_row b stride) (lb, out) =
        Some (lb', write_all (map (fun y => scanline b y ++ padding b lb)
                                  (countdown n)) stride out) /\
      length lb' = Z.to_nat stride /\ padding b lb' = padding b lb.
Proof.
  intros Hs Hstride.
  assert (Hw : 0 < width (header b)) by apply Hs.
  induction n as [| n IH]; intros lb out Hn Hlb.
  - exists lb. simpl. repeat split; assumption.
  - cbn [countdown for_loop map].
    rewrite write_row_spec by (try assumption; lia). simpl.
    pose proof (length_scanline b (Z.of_nat n) Hs ltac:(lia)) as Hsl.
    assert (Hpad : padding b (scanline b (Z.of_nat n) ++ padding b lb) = padding b lb).
    { unfold padding at 1. rewrite drop_app_length' by (symmetry; exact Hsl).
      reflexivity. }
    destruct (IH (scanline b (Z.of_nat n) ++ padding b lb)
                 (snd (fwrite (scanline b (Z.of_nat n) ++ padding b lb) 1 stride out)))
      as (lb' & E & Hl' & Hp').
    { lia. }
    { rewrite length_app, Hsl. unfold padding. rewrite length_drop. lia. }
    exists lb'. rewrite Hpad in E.
    split; [exact E |]. split; [exact Hl' | congruence].
Qed.

(** ** The encoder as a whole *)

Lemma canvas_ok_shape b : canvas_ok b -> canvas_shape b.
Proof.
  unfold canvas_ok, canvas_shape. intros (Hw & Hh & Hm & Hs & Hl).
  destruct (stride_bounds _ Hw Hm) as [Hb _].
  repeat split; try assumption. nia.
Qed.

(** What [writeBitmapData] comes to on a well-formed canvas, whatever the
    room of the stream: it returns 0, has filled in the header, and has
    handed to [fwrite] the header and then the rows from the last to the
    first, each made of its pixel bytes and of the bytes that the line
    buffer held beyond them when it was declared. *)
Lemma writeBitmapData_spec out b stack :
  canvas_ok b ->
  let w := width (header b) in
  let h := height (header b) in
  let stride := BMP_BYTES_PER_LINE w BITCOUNT in
  exists b',
    writeBitmapData out b stack =
      Some (0,
            write_all
              (map (fun y => scanline b y ++ padding b (uninitialised stack stride))
                   (countdown (Z.to_nat h)))
              stride
              (snd (fwrite (header_bytes (header b')) sizeof_bitmapHeader 1 out)),
            b') /\
    pixelBuffer b' = pixelBuffer b /\
    width (header b') = w /\ height (header b') = h /\
    imageSize (header b') = stride * h /\
    fileSize (header b') = stride * h + 54 /\
    imageOffset (header b') = 54 /\
    bfType (header b') = (66, 77) /\
    headerSize (header b') = 40 /\
    planes (header b') = 1 /\ bitCount (header b') = 24.
Proof.
  intros Hok w h stride.
  pose proof (canvas_ok_shape b Hok) as Hshape.
  destruct Hok as (Hw & Hh & Hm & Hs & Hl). fold w h stride in Hw, Hh, Hm, Hs, Hl.
  destruct (stride_bounds w Hw Hm) as [Hb _]. fold stride in Hb.
  unfold CInt.INT_MAX in *.
  assert (Hhmax : h <= 2147483647) by nia.
  assert (Himg : CInt.mul stride h = stride * h).
  { unfold CInt.mul. apply wrap_small. nia. }
  assert (Hfile : CInt.add (stride * h) sizeof_bitmapHeader = stride * h + 54).
  { unfold CInt.add, sizeof_bitmapHeader. apply wrap_small. nia. }
  unfold writeBitmapData. fold w h stride. rewrite Himg, Hfile.
  set (hd := {| bfType := (66, 77); fileSize := stride * h + 54 |}).
  set (b' := {| header := hd; pixelBuffer := pixelBuffer b |}).
  exists b'.
  destruct (Z.leb_spec stride 0) as [Hneg | _]; [lia |].
  cbn [height hd].
  replace (Z.to_nat (CInt.sub h 1 + 1)) with (Z.to_nat h)
    by (unfold CInt.sub; rewrite wrap_small by lia; lia).
  assert (Hshape' : canvas_shape b') by exact Hshape.
  destruct (write_rows_spec b' stride Hshape' ltac:(unfold CInt.INT_MAX; simpl; nia)
              (Z.to_nat h) (uninitialised stack stride)
              (snd (fwrite (header_bytes hd) sizeof_bitmapHeader 1 out)))
    as (lb' & E & _ & _).
  { simpl. fold h. lia. }
  { unfold uninitialised. rewrite length_map, length_seq. reflexivity. }
  rewrite E. simpl.
  repeat split; reflexivity.
Qed.

Lemma length_header_bytes hd : length (header_bytes hd) = 54%nat.
Proof. reflexivity. Qed.

Lemma header_bytes_offset_10 hd :
  take 4 (drop 10 (header_bytes hd)) = le_bytes 4 (imageOffset hd).
Proof. reflexivity. Qed.

Lemma length_countdown n : length (countdown n) = n.
Proof. induction n as [| n IH]; simpl; [reflexivity | rewrite IH; reflexivity]. Qed.

Lemma countdown_lookup n : forall k,
  (k < n)%nat -> countdown n !! k = Some (Z.of_nat (n - 1 - k)).
Proof.
  induction n as [| n IH]; intros k Hk; [lia |].
  destruct k as [| k]; simpl.
  - f_equal. lia.
  - rewrite IH by lia. f_equal. lia.
Qed.

Lemma encoded_rows_length b pad (ys : list Z) stride :
  canvas_shape b ->
  Z.of_nat (length pad) = stride - 3 * width (header b) ->
  Forall (fun y => 0 <= y < height (header b)) ys ->
  Forall (fun row => length row = Z.to_nat stride)
         (map (fun y => scanline b y ++ pad) ys).
Proof.
  intros Hs Hpad Hys. induction Hys as [| y ys Hy _ IH]; simpl; constructor.
  - rewrite length_app, length_scanline by assumption.
    destruct Hs as (Hw & _). lia.
  - exact IH.
Qed.

Lemma countdown_range n : Forall (fun y => 0 <= y < Z.of_nat n) (countdown n).
Proof.
  induction n as [| n IH]; simpl; constructor; [lia |].
  eapply Forall_impl; [exact IH |]. simpl. intros; lia.
Qed.

Lemma length_uninitialised stack n : length (uninitialised stack n) = Z.to_nat n.
Proof. unfold uninitialised. rewrite length_map, length_seq. reflexivity. Qed.

Lemma length_padding b stack stride :
  3 * width (header b) <= stride -> 0 < width (header b) ->
  Z.of_nat (length (padding b (uninitialised stack stride))) =
    stride - 3 * width (header b).
Proof.
  intros H Hw. unfold padding. rewrite length_drop, length_uninitialised. lia.
Qed.

(** The bytes of a row of pixels: byte [j] of cell [i] is at [3*i + j]. *)
Lemma pixel_rows_lookup (cs : list Z) : forall i c j,
  cs !! i = Some c -> (j < 3)%nat ->
  concat (map pixel_bytes cs) !! (3 * i + j)%nat = pixel_bytes c !! j.
Proof.
  induction cs as [| c0 cs IH]; intros i c j Hc Hj; [discriminate |].
  destruct i as [| i]; simpl in Hc.
  - injection Hc as ->. simpl.
    destruct j as [| [| [| j]]]; try reflexivity. lia.
  - replace (3 * S i + j)%nat with (S (S (S (3 * i + j)))) by lia.
    simpl. apply IH; assumption.
Qed.

Lemma cell_row_cells b x y :
  canvas_shape b -> in_canvas b x y ->
  exists c, cell b x y = Some c /\ row_cells b y !! Z.to_nat x = Some c.
Proof.
  intros Hs Hi.
  assert (Hlen := row_cells_length b y Hs ltac:(apply Hi)).
  destruct (lookup_lt_is_Some_2 (row_cells b y) (Z.to_nat x)) as [c Hc].
  { unfold in_canvas in Hi. lia. }
  exists c. split; [| exact Hc].
  unfold cell. replace x with (Z.of_nat (Z.to_nat x)) by (unfold in_canvas in Hi; lia).
  apply row_cells_lookup; [exact Hs | apply Hi | exact Hc].
Qed.

Lemma scanline_lookup b x y pad :
  canvas_shape b -> in_canvas b x y ->
  exists c, cell b x y = Some c /\
    (scanline b y ++ pad) !! Z.to_nat (3 * x) = Some (int_byte c 0) /\
    (scanline b y ++ pad) !! Z.to_nat (3 * x + 1) = Some (int_byte c 1) /\
    (scanline b y ++ pad) !! Z.to_nat (3 * x + 2) = Some (int_byte c 2).
Proof.
  intros Hs Hi. destruct (cell_row_cells b x y Hs Hi) as (c & Hc & Hr).
  exists c. split; [exact Hc |].
  assert (Hx : 0 <= x) by apply Hi.
  assert (Hj : forall j, (j < 3)%nat ->
            (scanline b y ++ pad) !! (3 * Z.to_nat x + j)%nat = pixel_bytes c !! j).
  { intros j Hj. unfold scanline.
    rewrite <- (pixel_rows_lookup (row_cells b y) (Z.to_nat x) c j Hr Hj).
    apply lookup_app_l. rewrite length_pixel_rows.
    apply lookup_lt_Some in Hr. lia. }
  replace (Z.to_nat (3 * x)) with (3 * Z.to_nat x + 0)%nat by lia.
  replace (Z.to_nat (3 * x + 1)) with (3 * Z.to_nat x + 1)%nat by lia.
  replace (Z.to_nat (3 * x + 2)) with (3 * Z.to_nat x + 2)%nat by lia.
  rewrite !Hj by lia. repeat split; reflexivity.
Qed.

(** The padding bytes of an emitted row are those the stack held. *)
Lemma padded_row_lookup b y stack stride i :
  canvas_shape b -> 0 <= y < height (header b) ->
  3 * width (header b) <= i < stride ->
  (scanline b y ++ padding b (uninitialised stack stride)) !! Z.to_nat i =
    Some (stack (Z.to_nat i) mod 256).
Proof.
  intros Hs Hy Hi. assert (Hw : 0 < width (header b)) by apply Hs.
  rewrite lookup_app_r; rewrite length_scanline by assumption; [| lia].
  unfold padding. rewrite lookup_drop.
  replace (Z.to_nat (3 * width (header b)) +
           (Z.to_nat i - Z.to_nat (3 * width (header b))))%nat
    with (Z.to_nat i) by lia.
  unfold uninitialised.
  change (map ?f ?l) with (f <$> l).
  rewrite list_lookup_fmap, lookup_seq_lt by lia. reflexivity.
Qed.

Lemma length_concat_uniform {A : Type} (rows : list (list A)) n :
  Forall (fun row => length row = n) rows ->
  length (concat rows) = (length rows * n)%nat.
Proof.
  intros H. induction H as [| row rows Hrow _ IH]; simpl; [reflexivity |].
  rewrite length_app, Hrow, IH. reflexivity.
Qed.

(** The file a well-formed canvas is encoded to, when the stream has room
    for it: after what the stream held, the header and then the rows. *)
Lemma writeBitmapData_file out b stack :
  canvas_ok b ->
  let w := width (header b) in
  let h := height (header b) in
  let stride := BMP_BYTES_PER_LINE w BITCOUNT in
  let rows := map (fun y => scanline b y ++ padding b (uninitialised stack stride))
                  (countdown (Z.to_nat h)) in
  54 + stride * h <= Z.of_nat (froom out) ->
  exists out' b',
    writeBitmapData out b stack = Some (0, out', b') /\
    fbytes out' = fbytes out ++ header_bytes (header b') ++ concat rows /\
    Forall (fun row => length row = Z.to_nat stride) rows /\
    length rows = Z.to_nat h /\
    imageSize (header b') = stride * h /\
    fileSize (header b') = stride * h + 54 /\
    imageOffset (header b') = 54.
Proof.
  intros Hok w h stride rows Hroom.
  pose proof (canvas_ok_shape b Hok) as Hshape.
  destruct (writeBitmapData_spec out b stack Hok)
    as (b' & E & _ & _ & _ & Hi & Hf & Ho & _).
  fold w h stride in E, Hi, Hf. fold rows in E.
  destruct Hok as (Hw & Hh & Hm & Hs & Hl). fold w h stride in Hw, Hh, Hm, Hs, Hl.
  destruct (stride_bounds w Hw Hm) as [Hb _]. fold stride in Hb.
  assert (Hrows : Forall (fun row => length row = Z.to_nat stride) rows).
  { apply encoded_rows_length;
      [exact Hshape | apply length_padding; [unfold w in Hb; lia | exact Hw] |].
    eapply Forall_impl; [apply countdown_range |]. simpl. intros; lia. }
  assert (Hlen : length rows = Z.to_nat h).
  { unfold rows. rewrite length_map, length_countdown. reflexivity. }
  eexists _, b'. split; [exact E |].
  assert (0 <= stride * h) by nia.
  rewrite fwrite_fits by (rewrite length_header_bytes; unfold sizeof_bitmapHeader; lia).
  destruct (write_all_fits rows stride
              {| fbytes := fbytes out ++ header_bytes (header b');
                 froom := (froom out - length (header_bytes (header b')))%nat |} Hrows)
    as [Hbytes _].
  { cbn [froom]. rewrite length_header_bytes, Hlen. nia. }
  rewrite Hbytes. cbn [fbytes]. rewrite <- app_assoc.
  repeat split; assumption.
Qed.

(** C6 (with the figures of the example as the code gives them): for every
    canvas of positive width and height whose sizes fit an [int], written
    to a stream with room for it, the encoder emits exactly
    [54 + row-stride * height] bytes; the header's pixel-data size is
    [row-stride * height], its file size is the pixel-data size plus 54,
    and the four bytes at offset 10 are the little-endian 54.  For
    width 4 and height 2 the stride is 12 and the file has 78 bytes. *)
Theorem writeBitmapData_size (out : FILE) (b : bitmapData) (stack : nat -> Z) :
  canvas_ok b ->
  54 + BMP_BYTES_PER_LINE (width (header b)) BITCOUNT * height (header b)
    <= Z.of_nat (froom out) ->
  exists out' b' file,
    writeBitmapData out b stack = Some (0, out', b') /\
    fbytes out' = fbytes out ++ file /\
    Z.of_nat (length file) =
      54 + BMP_BYTES_PER_LINE (width (header b)) BITCOUNT * height (header b) /\
    imageSize (header b') =
      BMP_BYTES_PER_LINE (width (header b)) BITCOUNT * height (header b) /\
    fileSize (header b') = imageSize (header b') + 54 /\
    take 4 (drop 10 file) = [54; 0; 0; 0] /\
    BMP_BYTES_PER_LINE 4 BITCOUNT = 12.
Proof.
  intros Hok Hroom.
  destruct (writeBitmapData_file out b stack Hok Hroom)
    as (out' & b' & E & Hb & Hrows & Hlen & Hi & Hf & Ho).
  eexists out', b', _. split; [exact E |]. split; [exact Hb |].
  assert (Hh : 0 < height (header b)) by apply Hok.
  assert (Hw : 0 < width (header b)) by apply Hok.
  destruct (stride_bounds _ Hw (proj1 (proj2 (proj2 Hok)))) as [Hsb _].
  split; [| split; [exact Hi | split; [lia | split; [| reflexivity]]]].
  - rewrite length_app, length_header_bytes.
    rewrite (length_concat_uniform _ (Z.to_nat (BMP_BYTES_PER_LINE (width (header b)) BITCOUNT)))
      by exact Hrows.
    rewrite Hlen. nia.
  - rewrite drop_app_le by (rewrite length_header_bytes; lia).
    rewrite take_app_le by (rewrite length_drop, length_header_bytes; lia).
    rewrite header_bytes_offset_10, Ho. reflexivity.
Qed.

Lemma canvas_ok_blank_4_2 : canvas_ok (blank 4 2).
Proof.
  unfold canvas_ok, CInt.INT_MAX.
  change (BMP_BYTES_PER_LINE (width (header (blank 4 2))) BITCOUNT) with 12.
  simpl. repeat split; lia.
Qed.

Lemma writeBitmapData_size_witness :
  (canvas_ok (blank 4 2) /\
   54 + BMP_BYTES_PER_LINE (width (header (blank 4 2))) BITCOUNT
        * height (header (blank 4 2)) <= Z.of_nat (froom (fresh_stream 100))) /\
  exists out' b' file,
    writeBitmapData (fresh_stream 100) (blank 4 2) (stack_of 0) = Some (0, out', b') /\
    fbytes out' = fbytes (fresh_stream 100) ++ file /\
    Z.of_nat (length file) =
      54 + BMP_BYTES_PER_LINE (width (header (blank 4 2))) BITCOUNT
           * height (header (blank 4 2)) /\
    imageSize (header b') =
      BMP_BYTES_PER_LINE (width (header (blank 4 2))) BITCOUNT
      * height (header (blank 4 2)) /\
    fileSize (header b') = imageSize (header b') + 54 /\
    take 4 (drop 10 file) = [54; 0; 0; 0] /\
    BMP_BYTES_PER_LINE 4 BITCOUNT = 12.
Proof.
  assert (H1 : canvas_ok (blank 4 2)) by exact canvas_ok_blank_4_2.
  assert (H2 : 54 + BMP_BYTES_PER_LINE (width (header (blank 4 2))) BITCOUNT
                    * height (header (blank 4 2))
               <= Z.of_nat (froom (fresh_stream 100))).
  { vm_compute. discriminate. }
  split; [split; assumption |].
  exact (writeBitmapData_size (fresh_stream 100) (blank 4 2) (stack_of 0) H1 H2).
Defined.

(** C6 as stated fails in its example: for width 4 and height 2 the stride
    is 12, not 16, and the file has 78 bytes, not 86. *)
Lemma writeBitmapData_4x2_is_78_bytes :
  BMP_BYTES_PER_LINE 4 BITCOUNT = 12 /\ 12 <> 16 /\
  emitted_length (writeBitmapData (fresh_stream 1000) (blank 4 2) (stack_of 0))
    = Some 78%nat /\
  Some 78%nat <> Some 86%nat.
Proof.
  split; [reflexivity |]. split; [lia |].
  split; [vm_compute; reflexivity | discriminate].
Qed.

(** C9: the encoder emits, after the header, one scanline per row of the
    canvas, the row [height - 1] first and the row 0 last; in the scanline
    of row [y], for every column [x] of the canvas, the bytes at [3*x],
    [3*x + 1] and [3*x + 2] are the three lowest-order bytes of the cell
    at [(x, y)], in order. *)
Theorem writeBitmapData_scanlines (out : FILE) (b : bitmapData) (stack : nat -> Z) :
  canvas_ok b ->
  54 + BMP_BYTES_PER_LINE (width (header b)) BITCOUNT * height (header b)
    <= Z.of_nat (froom out) ->
  exists out' b' rows,
    writeBitmapData out b stack = Some (0, out', b') /\
    fbytes out' = fbytes out ++ header_bytes (header b') ++ concat rows /\
    length rows = Z.to_nat (height (header b)) /\
    forall k, 0 <= k < height (header b) ->
      exists row,
        rows !! Z.to_nat k = Some row /\
        length row = Z.to_nat (BMP_BYTES_PER_LINE (width (header b)) BITCOUNT) /\
        forall x, 0 <= x < width (header b) ->
          exists c,
            cell b x (height (header b) - 1 - k) = Some c /\
            row !! Z.to_nat (3 * x) = Some (int_byte c 0) /\
            row !! Z.to_nat (3 * x + 1) = Some (int_byte c 1) /\
            row !! Z.to_nat (3 * x + 2) = Some (int_byte c 2).
Proof.
  intros Hok Hroom.
  pose proof (canvas_ok_shape b Hok) as Hshape.
  destruct (writeBitmapData_file out b stack Hok Hroom)
    as (out' & b' & E & Hb & Hrows & Hlen & _).
  eexists out', b', _. split; [exact E |]. split; [exact Hb |].
  split; [exact Hlen |].
  intros k Hk.
  set (pad := padding b (uninitialised stack
                 (BMP_BYTES_PER_LINE (width (header b)) BITCOUNT))) in *.
  exists (scanline b (height (header b) - 1 - k) ++ pad).
  assert (Hrow : map (fun y => scanline b y ++ pad)
                     (countdown (Z.to_nat (height (header b)))) !! Z.to_nat k
                 = Some (scanline b (height (header b) - 1 - k) ++ pad)).
  { change (map ?f ?l) with (f <$> l).
    rewrite list_lookup_fmap, countdown_lookup by lia. simpl.
    do 3 f_equal. lia. }
  split; [exact Hrow |]. split.
  - eapply Forall_lookup_1 in Hrows; [| exact Hrow]. exact Hrows.
  - intros x Hx. apply scanline_lookup; [exact Hshape |].
    unfold in_canvas. lia.
Qed.

Lemma canvas_ok_sample_2x2 : canvas_ok sample_2x2.
Proof.
  unfold canvas_ok, CInt.INT_MAX.
  change (BMP_BYTES_PER_LINE (width (header sample_2x2)) BITCOUNT) with 8.
  simpl. repeat split; lia.
Qed.

Lemma writeBitmapData_scanlines_witness :
  (canvas_ok sample_2x2 /\
   54 + BMP_BYTES_PER_LINE (width (header sample_2x2)) BITCOUNT
        * height (header sample_2x2) <= Z.of_nat (froom (fresh_stream 100))) /\
  emitted_from 54 (writeBitmapData (fresh_stream 100) sample_2x2 (stack_of 0))
    = Some [9; 8; 7; 12; 11; 10; 0; 0; 3; 2; 1; 6; 5; 4; 0; 0] /\
  exists out' b' rows,
    writeBitmapData (fresh_stream 100) sample_2x2 (stack_of 0) = Some (0, out', b') /\
    fbytes out' = fbytes (fresh_stream 100) ++ header_bytes (header b') ++ concat rows /\
    length rows = Z.to_nat (height (header sample_2x2)) /\
    forall k, 0 <= k < height (header sample_2x2) ->
      exists row,
        rows !! Z.to_nat k = Some row /\
        length row = Z.to_nat (BMP_BYTES_PER_LINE (width (header sample_2x2)) BITCOUNT) /\
        forall x, 0 <= x < width (header sample_2x2) ->
          exists c,
            cell sample_2x2 x (height (header sample_2x2) - 1 - k) = Some c /\
            row !! Z.to_nat (3 * x) = Some (int_byte c 0) /\
            row !! Z.to_nat (3 * x + 1) = Some (int_byte c 1) /\
            row !! Z.to_nat (3 * x + 2) = Some (int_byte c 2).
Proof.
  assert (H1 : canvas_ok sample_2x2) by exact canvas_ok_sample_2x2.
  assert (H2 : 54 + BMP_BYTES_PER_LINE (width (header sample_2x2)) BITCOUNT
                    * height (header sample_2x2)
               <= Z.of_nat (froom (fresh_stream 100))).
  { vm_compute. discriminate. }
  split; [split; assumption |].
  split; [vm_compute; reflexivity |].
  exact (writeBitmapData_scanlines (fresh_stream 100) sample_2x2 (stack_of 0) H1 H2).
Defined.

(** ** The padding bytes *)

(** C2 (the code does not do it): for a 1 x 1 black canvas encoded while
    the stack holds the byte 170 where the line buffer is placed, the one
    scanline of the file is [0; 0; 0; 170]: its padding byte is the stale
    170, not zero. *)
Theorem writeBitmapData_padding_not_zeroed :
  emitted_from 54 (writeBitmapData (fresh_stream 58) (blank 1 1) (stack_of 170))
  = Some [0; 0; 0; 170].
Proof. vm_compute. reflexivity. Qed.

(** ** The status of the encoder *)

(** C4 (as the code has it): on a well-formed canvas [saveBitmap] returns;
    its status is the failure status -1 exactly when the file cannot be
    opened, and 0 otherwise, whatever becomes of the writes, whose results
    it does not look at.  When the file cannot be opened there is no open
    file and the canvas is as it was. *)
Theorem saveBitmap_status (fs : filesystem) (filename : string)
    (b : bitmapData) (stack : nat -> Z) :
  canvas_ok b ->
  exists st f b',
    saveBitmap fs filename b stack = Some (st, f, b') /\
    (st = -1 <-> fopen fs filename = None) /\
    (st = 0 <-> fopen fs filename <> None) /\
    (st = -1 -> f = None /\ b' = b).
Proof.
  intros Hok. unfold saveBitmap.
  destruct (fopen fs filename) as [output |].
  - destruct (writeBitmapData_spec output b stack Hok) as (b' & E & _).
    rewrite E. simpl. eexists 0, _, b'. split; [reflexivity |].
    split; [split; [lia | discriminate] |].
    split; [split; [discriminate | reflexivity] | lia].
  - exists (-1), None, b. split; [reflexivity |].
    split; [split; reflexivity |].
    split; [split; [lia | congruence] |].
    intros _. split; reflexivity.
Qed.

Lemma saveBitmap_status_witness :
  canvas_ok (blank 4 2) /\
  exists st f b',
    saveBitmap fs_closed "myBitmap.bmp" (blank 4 2) (stack_of 0) = Some (st, f, b') /\
    (st = -1 <-> fopen fs_closed "myBitmap.bmp" = None) /\
    (st = 0 <-> fopen fs_closed "myBitmap.bmp" <> None) /\
    (st = -1 -> f = None /\ b' = blank 4 2).
Proof.
  assert (H : canvas_ok (blank 4 2)) by exact canvas_ok_blank_4_2.
  split; [exact H |].
  exact (saveBitmap_status fs_closed "myBitmap.bmp" (blank 4 2) (stack_of 0) H).
Defined.

(** C4 as stated fails: on a device without room the file opens, every
    write fails (the write of the header returns 0 items, and the file is
    closed empty), and yet [saveBitmap] returns the success status 0. *)
Lemma saveBitmap_write_failure_unreported :
  fopen (fs_with_room 0) "myBitmap.bmp" = Some (fresh_stream 0) /\
  (forall data, fst (fwrite data sizeof_bitmapHeader 1 (fresh_stream 0)) = 0) /\
  exists b',
    saveBitmap (fs_with_room 0) "myBitmap.bmp" (blank 4 2) (stack_of 0)
    = Some (0, Some (fresh_stream 0), b').
Proof.
  split; [reflexivity |]. split; [intros data; reflexivity |].
  eexists. vm_compute. reflexivity.
Qed.

(** ** Creation of the canvas *)

Lemma to_size_t_exact w h :
  0 < w -> 0 < h -> w * h <= CInt.INT_MAX ->
  CInt.to_size_t (CInt.mul w h) = w * h.
Proof.
  unfold CInt.INT_MAX, CInt.to_size_t, CInt.SIZE_MAX, CInt.mul. intros Hw Hh Hm.
  rewrite wrap_small by nia. apply Z.mod_small. nia.
Qed.

Lemma newBitmap_cases hp w h :
  let n := CInt.to_size_t (CInt.mul w h) in
  newBitmap hp w h =
    if (sizeof_bitmapData <=? free_bytes hp) &&
       ((n * 4 <=? CInt.SIZE_MAX) && (n * 4 <=? free_bytes hp - sizeof_bitmapData))
    then (Some {| header := header (blank w h);
                  pixelBuffer := replicate (Z.to_nat n) 0 |},
          {| free_bytes := free_bytes hp - sizeof_bitmapData - n * 4;
             live_blocks := S (S (live_blocks hp)) |})
    else (None, hp).
Proof.
  intros n. unfold newBitmap, calloc. fold n.
  change (1 * sizeof_bitmapData) with 64. change sizeof_bitmapData with 64.
  change (64 <=? CInt.SIZE_MAX) with true. cbn [andb].
  destruct (64 <=? free_bytes hp); cbn [andb free_bytes live_blocks];
    [| reflexivity].
  destruct ((n * 4 <=? CInt.SIZE_MAX) && (n * 4 <=? free_bytes hp - 64));
    [reflexivity |].
  destruct hp as [fb lb]. unfold free. cbn [free_bytes live_blocks pred].
  do 2 f_equal. lia.
Qed.

(** C3 (as the code has it): [newBitmap] fails exactly when the heap
    cannot hand out the structure or the pixel buffer; it does not look
    at the signs of the width and of the height.  When it fails the heap is
    as it was, so nothing of a canvas is left.  When it succeeds the canvas
    has the given width and height and a buffer of zero cells, one for
    each unit of [width * height] as converted to [size_t], which is
    [width * height] itself for positive dimensions whose product fits an
    [int]. *)
Theorem newBitmap_spec (hp : heap) (w h : Z) :
  let n := CInt.to_size_t (CInt.mul w h) in
  (fst (newBitmap hp w h) = None <->
     free_bytes hp < sizeof_bitmapData \/
     CInt.SIZE_MAX < n * 4 \/
     free_bytes hp - sizeof_bitmapData < n * 4) /\
  (fst (newBitmap hp w h) = None -> snd (newBitmap hp w h) = hp) /\
  (forall b, fst (newBitmap hp w h) = Some b ->
     width (header b) = w /\ height (header b) = h /\
     pixelBuffer b = replicate (Z.to_nat n) 0 /\
     live_blocks (snd (newBitmap hp w h)) = S (S (live_blocks hp))) /\
  (0 < w -> 0 < h -> w * h <= CInt.INT_MAX -> n = w * h).
Proof.
  intros n. rewrite newBitmap_cases. fold n.
  destruct (Z.leb_spec sizeof_bitmapData (free_bytes hp)) as [H1 | H1];
    destruct (Z.leb_spec (n * 4) CInt.SIZE_MAX) as [H2 | H2];
    destruct (Z.leb_spec (n * 4) (free_bytes hp - sizeof_bitmapData)) as [H3 | H3];
    cbn [andb fst snd].
  all: split; [split; [try discriminate; intros _; lia | try (intros; lia); reflexivity] |].
  all: split; [try discriminate; reflexivity |].
  all: split; [| apply to_size_t_exact].
  all: intros b Hb; try discriminate.
  injection Hb as <-. repeat split; reflexivity.
Qed.

(** C3 as stated fails: with a width and a height of -1 the product is 1,
    the two allocations succeed on a heap with room, and [newBitmap]
    returns a canvas. *)
Lemma newBitmap_negative_dimensions :
  -1 <= 0 /\
  fst (newBitmap {| free_bytes := 1000; live_blocks := 0 |} (-1) (-1)) <> None.
Proof. split; [lia |]. vm_compute. discriminate. Qed.

Lemma newBitmap_spec_witness :
  exists b,
    fst (newBitmap {| free_bytes := 1000; live_blocks := 0 |} 3 2) = Some b /\
    width (header b) = 3 /\ height (header b) = 2 /\
    pixelBuffer b = replicate (Z.to_nat (CInt.to_size_t (CInt.mul 3 2))) 0 /\
    live_blocks (snd (newBitmap {| free_bytes := 1000; live_blocks := 0 |} 3 2)) = 2%nat.
Proof.
  eexists. split; [vm_compute; reflexivity |].
  apply (proj1 (proj2 (proj2 (newBitmap_spec {| free_bytes := 1000; live_blocks := 0 |} 3 2)))).
  vm_compute. reflexivity.
Defined.

(** * Part III: further properties of the program *)

(** ** The layout of the pixel buffer *)

Lemma canvas_shape_bounds b :
  canvas_shape b ->
  0 < width (header b) <= 2147483647 /\ 0 < height (header b) <= 2147483647 /\
  0 < width (header b) * height (header b) <= 2147483647.
Proof.
  unfold canvas_shape, CInt.INT_MAX. intros (Hw & Hh & Hm & _). nia.
Qed.

(** The cells of the canvas and the indices of the pixel buffer correspond
    one to one: the point [(x, y)] has the index [x + y * width], which is
    below [width * height]; two points of the canvas with the same index
    are the same; and every index below [width * height] is the index of
    the point [(i mod width, i / width)] of the canvas. *)
Theorem pixel_index_bijection (b : bitmapData) :
  canvas_shape b ->
  let w := width (header b) in
  let h := height (header b) in
  (forall x y, in_canvas b x y ->
     GET_PIXEL_INDEX x y w = x + y * w /\ 0 <= x + y * w < w * h) /\
  (forall x1 y1 x2 y2, in_canvas b x1 y1 -> in_canvas b x2 y2 ->
     GET_PIXEL_INDEX x1 y1 w = GET_PIXEL_INDEX x2 y2 w -> x1 = x2 /\ y1 = y2) /\
  (forall i, 0 <= i < w * h ->
     in_canvas b (i mod w) (i / w) /\ GET_PIXEL_INDEX (i mod w) (i / w) w = i).
Proof.
  intros Hs w h.
  assert (Hl : length (pixelBuffer b) = Z.to_nat (w * h)) by apply Hs.
  destruct (canvas_shape_bounds b Hs) as (Hw & Hh & Hm). fold w h in Hw, Hh, Hm.
  assert (Hidx : forall x y, in_canvas b x y ->
            GET_PIXEL_INDEX x y w = x + y * w /\ 0 <= x + y * w < w * h).
  { intros x y Hi. destruct (pixel_index_in_canvas b x y Hs Hi) as [E R].
    fold w in E, R. split; [exact E |]. rewrite Hl in R. lia. }
  split; [exact Hidx |]. split.
  - intros x1 y1 x2 y2 H1 H2 E.
    destruct (Hidx x1 y1 H1) as [E1 _]. destruct (Hidx x2 y2 H2) as [E2 _].
    rewrite E1, E2 in E. unfold in_canvas in H1, H2. fold w h in H1, H2.
    assert (y1 = y2) by nia. subst y2. split; lia.
  - intros i Hi.
    pose proof (Z.div_mod i w ltac:(lia)) as Hdm.
    pose proof (Z.mod_pos_bound i w ltac:(lia)) as Hmod.
    assert (Hin : in_canvas b (i mod w) (i / w)).
    { unfold in_canvas. fold w h. split; [exact Hmod |].
      split; [apply Z.div_pos; lia |].
      apply Z.div_lt_upper_bound; lia. }
    split; [exact Hin |].
    destruct (Hidx _ _ Hin) as [E _]. rewrite E. lia.
Qed.

Lemma pixel_index_bijection_witness :
  canvas_shape (blank 4 3) /\
  GET_PIXEL_INDEX 1 2 4 = 1 + 2 * 4 /\
  in_canvas (blank 4 3) (9 mod 4) (9 / 4) /\
  GET_PIXEL_INDEX (9 mod 4) (9 / 4) 4 = 9.
Proof.
  assert (Hs : canvas_shape (blank 4 3)).
  { unfold canvas_shape, CInt.INT_MAX. simpl. repeat split; lia. }
  split; [exact Hs |].
  destruct (pixel_index_bijection (blank 4 3) Hs) as (H1 & _ & H3).
  split.
  - apply (H1 1 2). unfold in_canvas. simpl. lia.
  - apply (H3 9). simpl. lia.
Defined.

Lemma pixel_index_inj b x1 y1 x2 y2 :
  canvas_shape b -> in_canvas b x1 y1 -> in_canvas b x2 y2 ->
  GET_PIXEL_INDEX x1 y1 (width (header b)) = GET_PIXEL_INDEX x2 y2 (width (header b)) ->
  x1 = x2 /\ y1 = y2.
Proof.
  intros Hs H1 H2 E.
  destruct (pixel_index_in_canvas b x1 y1 Hs H1) as [E1 _].
  destruct (pixel_index_in_canvas b x2 y2 Hs H2) as [E2 _].
  rewrite E1, E2 in E. destruct (canvas_shape_bounds b Hs) as (Hw & _).
  unfold in_canvas in H1, H2.
  assert (y1 = y2) by nia. subst y2. split; lia.
Qed.

Lemma int_byte_3_small c : 0 <= c < 16777216 -> int_byte c 3 = 0.
Proof.
  intros H. unfold int_byte. change (256 ^ 3) with 16777216.
  rewrite Z.div_small by lia. reflexivity.
Qed.

(** Store and read back: on a canvas, [putPixel] at a point of the canvas
    with channel values in [0 .. 255] is defined, keeps the dimensions,
    and the cell of the point then holds the three channels in its three
    low bytes, red lowest, and zero in its high byte. *)
Theorem putPixel_read_back (b : bitmapData) (x y red green blue : Z) :
  canvas_shape b -> in_canvas b x y ->
  0 <= red < 256 -> 0 <= green < 256 -> 0 <= blue < 256 ->
  exists b' c,
    putPixel b x y red green blue = Some b' /\
    header b' = header b /\ canvas_shape b' /\
    cell b' x y = Some c /\
    int_byte c 0 = red /\ int_byte c 1 = green /\ int_byte c 2 = blue /\
    int_byte c 3 = 0.
Proof.
  intros Hs Hi Hr Hg Hb.
  destruct (putPixel_in_canvas b x y red green blue Hs Hi) as (b' & E & Hs' & Hh).
  exists b', (PIXCOLOR red green blue).
  split; [exact E |]. split; [exact Hh |]. split; [exact Hs' |].
  split; [eapply putPixel_cell_eq; exact E |].
  destruct (PIXCOLOR_channels red green blue Hr Hg Hb) as (C0 & C1 & C2).
  repeat split; try assumption.
  apply int_byte_3_small. rewrite PIXCOLOR_value by assumption. lia.
Qed.

Lemma putPixel_read_back_witness :
  exists b' c,
    putPixel (blank 4 3) 1 2 10 20 30 = Some b' /\
    header b' = header (blank 4 3) /\ canvas_shape b' /\
    cell b' 1 2 = Some c /\
    int_byte c 0 = 10 /\ int_byte c 1 = 20 /\ int_byte c 2 = 30 /\
    int_byte c 3 = 0.
Proof.
  apply (putPixel_read_back (blank 4 3) 1 2 10 20 30).
  - unfold canvas_shape, CInt.INT_MAX. simpl. repeat split; lia.
  - unfold in_canvas. simpl. lia.
  - lia.
  - lia.
  - lia.
Defined.

Lemma putPixel_frame b x y red green blue b' x0 y0 :
  canvas_shape b -> in_canvas b x y -> in_canvas b x0 y0 ->
  (x0, y0) <> (x, y) ->
  putPixel b x y red green blue = Some b' ->
  cell b' x0 y0 = cell b x0 y0.
Proof.
  intros Hs Hi Hi0 Hne E.
  apply putPixel_Some in E as [Hh Hset].
  unfold cell. rewrite Hh.
  eapply arr_get_set_ne; [exact Hset |].
  intros Heq. apply Hne.
  destruct (pixel_index_inj b x y x0 y0 Hs Hi Hi0 Heq) as [-> ->]. reflexivity.
Qed.

(** A store changes one cell: every other point of the canvas keeps the
    cell it had. *)
Theorem putPixel_other_cells (b : bitmapData) (x y red green blue : Z)
    (b' : bitmapData) (x0 y0 : Z) :
  canvas_shape b -> in_canvas b x y -> in_canvas b x0 y0 ->
  (x0, y0) <> (x, y) ->
  putPixel b x y red green blue = Some b' ->
  cell b' x0 y0 = cell b x0 y0.
Proof. apply putPixel_frame. Qed.

Lemma putPixel_other_cells_witness :
  exists b',
    putPixel (blank 4 3) 1 2 10 20 30 = Some b' /\
    cell b' 2 1 = cell (blank 4 3) 2 1.
Proof.
  eexists. split; [vm_compute; reflexivity |].
  apply (putPixel_other_cells (blank 4 3) 1 2 10 20 30 _ 2 1).
  - unfold canvas_shape, CInt.INT_MAX. simpl. repeat split; lia.
  - unfold in_canvas. simpl. lia.
  - unfold in_canvas. simpl. lia.
  - discriminate.
  - vm_compute. reflexivity.
Defined.

(** [putPixel] checks no bound: a column index one width too far to the
    right is the same store as the column itself one row further down. *)
Theorem putPixel_wraps_to_next_row (b : bitmapData) (x y red green blue : Z) :
  canvas_shape b ->
  0 <= x < width (header b) -> 0 <= y -> y + 1 < height (header b) ->
  putPixel b (x + width (header b)) y red green blue =
  putPixel b x (y + 1) red green blue /\
  is_Some (putPixel b (x + width (header b)) y red green blue).
Proof.
  intros Hs Hx Hy Hy1.
  destruct (canvas_shape_bounds b Hs) as (Hw & Hh & Hm).
  assert (Hin : in_canvas b x (y + 1)) by (unfold in_canvas; lia).
  destruct (pixel_index_in_canvas b x (y + 1) Hs Hin) as [E R].
  assert (E' : GET_PIXEL_INDEX (x + width (header b)) y (width (header b)) =
               GET_PIXEL_INDEX x (y + 1) (width (header b))).
  { rewrite E. unfold GET_PIXEL_INDEX, CInt.add, CInt.mul.
    assert (0 <= y * width (header b)) by nia.
    assert (x + (y + 1) * width (header b) < width (header b) * height (header b)) by nia.
    rewrite (wrap_small (y * _)) by nia. rewrite wrap_small by nia. lia. }
  unfold putPixel at 1 2. rewrite E'. split; [reflexivity |].
  destruct (putPixel_in_canvas b x (y + 1) red green blue Hs Hin) as (b' & Eb & _).
  unfold putPixel. rewrite E'. unfold putPixel in Eb. rewrite Eb. eauto.
Qed.

Lemma putPixel_wraps_to_next_row_witness :
  putPixel (blank 4 3) (1 + width (header (blank 4 3))) 0 10 20 30 =
  putPixel (blank 4 3) 1 (0 + 1) 10 20 30 /\
  is_Some (putPixel (blank 4 3) (1 + width (header (blank 4 3))) 0 10 20 30).
Proof.
  apply (putPixel_wraps_to_next_row (blank 4 3) 1 0 10 20 30).
  - unfold canvas_shape, CInt.INT_MAX. simpl. repeat split; lia.
  - simpl. lia.
  - lia.
  - simpl. lia.
Defined.

(** ** The rasterizer within its square *)

Lemma write_points_frame pts : forall b red green blue b' x0 y0,
  canvas_shape b ->
  Forall (fun p => in_canvas b (fst p) (snd p)) pts ->
  in_canvas b x0 y0 ->
  Forall (fun p => (x0, y0) <> p) pts ->
  write_points b pts red green blue = Some b' ->
  cell b' x0 y0 = cell b x0 y0.
Proof.
  induction pts as [| p rest IH]; intros b red green blue b' x0 y0 Hs Hall Hi0 Hne E;
    simpl in E.
  - injection E as <-. reflexivity.
  - inversion Hall as [| ? ? Hp Hrest]; subst.
    inversion Hne as [| ? ? Hnp Hnrest]; subst.
    destruct (putPixel_in_canvas b (fst p) (snd p) red green blue Hs Hp)
      as (b1 & E1 & Hs1 & Hh1).
    rewrite E1 in E. simpl in E.
    rewrite (IH b1 red green blue b' x0 y0 Hs1); try assumption.
    + eapply putPixel_frame; try eassumption. destruct p; exact Hnp.
    + eapply Forall_impl; [exact Hrest |]. intros q Hq.
      unfold in_canvas in *. rewrite Hh1. exact Hq.
    + unfold in_canvas in *. rewrite Hh1. exact Hi0.
Qed.







(** An emission step with local coordinates in [0 .. r], around a centre at
    least [r] away from the edges: it is defined and changes no cell
    outside the square of half-side [r] around the centre. *)
Lemma emission_in_box b xc yc r x y :
  canvas_shape b ->
  0 <= x <= r -> 0 <= y <= r ->
  r <= xc < width (header b) - r ->
  r <= yc < height (header b) - r ->
  exists b', emission b xc yc x y = Some b' /\
             canvas_shape b' /\ header b' = header b /\
             forall x0 y0, in_canvas b x0 y0 -> ~ in_box xc yc r x0 y0 ->
                           cell b' x0 y0 = cell b x0 y0.
Proof.
  intros Hs Hx Hy Hxc Hyc.
  destruct (emission_in_canvas b xc yc x y r Hs) as (b' & E & Hs' & Hh); try lia.
  exists b'. split; [exact E |]. split; [exact Hs' |]. split; [exact Hh |].
  intros x0 y0 Hi0 Hout.
  destruct (canvas_shape_bounds b Hs) as (Hw & Hh0 & _).
  unfold emission in E. rewrite octants_exact in E.
  - eapply write_points_frame; [exact Hs | | exact Hi0 | | exact E].
    + unfold symmetric_points, in_canvas. repeat constructor; simpl; lia.
    + unfold symmetric_points, in_box in *.
      repeat constructor; intros Heq; injection Heq as -> ->; apply Hout; lia.
  - unfold emit_in_range, symmetric_points, CInt.in_int, CInt.INT_MIN, CInt.INT_MAX.
    repeat constructor; simpl; lia.
Qed.

Lemma bres_strong_inv_init r :
  1 <= r <= bres_max_radius ->
  bres_strong_inv r 0 r (CInt.sub 3 (CInt.mul 2 r)).
Proof.
  unfold bres_max_radius, bres_strong_inv, bres_d. intros Hr.
  unfold CInt.sub, CInt.mul. rewrite (wrap_small (2 * r)) by lia.
  rewrite wrap_small by lia.
  repeat split; try lia.
Qed.

Lemma bres_strong_inv_step r x y d :
  1 <= r <= bres_max_radius ->
  bres_strong_inv r x y d -> x <= y ->
  exists y' d',
    bres_update x y d = (x + 1, y', d') /\
    (y' = y \/ y' = y - 1) /\
    bres_strong_inv r (x + 1) y' d'.
Proof.
  unfold bres_max_radius, bres_strong_inv. intros Hr (Hd & Hx & Hy & H0 & Hlt) Hxy.
  assert (Hxr : x < r) by auto.
  assert (Hxx : 0 <= x * x <= 268435456) by nia.
  assert (Hyy : 0 <= y * y <= 268435456) by nia.
  assert (Hrr : 0 <= r * r <= 268435456) by nia.
  assert (Hdb : -600000000 <= d <= 1200000000) by (rewrite Hd; unfold bres_d; lia).
  unfold bres_update.
  assert (Hx1 : CInt.add x 1 = x + 1) by (unfold CInt.add; apply wrap_small; lia).
  rewrite Hx1.
  destruct (Z.gtb_spec d 0) as [Hpos | Hneg].
  - assert (Hy1 : 1 <= y).
    { destruct (Z.eq_dec x 0) as [E | E]; [rewrite (H0 E); lia | lia]. }
    exists (y - 1), (d + 4 * (x + 1 - (y - 1)) + 10).
    split.
    { unfold CInt.sub, CInt.add, CInt.mul.
      rewrite (wrap_small (y - 1)) by lia.
      rewrite (wrap_small (x + 1 - (y - 1))) by lia.
      rewrite (wrap_small (4 * _)) by lia.
      rewrite (wrap_small (d + _)) by lia.
      rewrite wrap_small by lia. reflexivity. }
    split; [right; reflexivity |].
    split; [rewrite Hd; unfold bres_d; ring |].
    split; [lia |]. split; [lia |]. split; [lia |].
    intros Hle. lia.
  - exists y, (d + 4 * (x + 1) + 6).
    split.
    { unfold CInt.add, CInt.mul.
      rewrite (wrap_small (4 * _)) by lia.
      rewrite (wrap_small (d + _)) by lia.
      rewrite wrap_small by lia. reflexivity. }
    split; [left; reflexivity |].
    split; [rewrite Hd; unfold bres_d; ring |].
    split; [lia |]. split; [lia |]. split; [lia |].
    intros Hle.
    destruct (Z.eq_dec (x + 1) r) as [E | E]; [| lia].
    exfalso. assert (y = r) by lia. subst y.
    assert (x = r - 1) by lia. subst x.
    rewrite Hd in Hneg. unfold bres_d in Hneg. nia.
Qed.

Lemma bres_reach_strong_inv r x y d :
  1 <= r <= bres_max_radius -> bres_reach r x y d -> bres_strong_inv r x y d.
Proof.
  intros Hr H. induction H as [| x y d x' y' d' _ IH Hxy Hu].
  - apply bres_strong_inv_init. exact Hr.
  - destruct (bres_strong_inv_step r x y d Hr IH Hxy) as (y1 & d1 & E & _ & Hinv).
    rewrite Hu in E. injection E as -> -> ->. exact Hinv.
Qed.

(** The invariant of the midpoint algorithm: in every state that a run
    with a radius between 1 and [bres_max_radius] reaches, the decision
    parameter is [2x^2 + 8x + 2y^2 - 6y + 3 + 4r - 2r^2], computed without
    overflow, and the local coordinates [x] and [y] lie in [0 .. r]. *)
Theorem bres_decision_closed_form (r x y d : Z) :
  1 <= r <= bres_max_radius ->
  bres_reach r x y d ->
  d = bres_d r x y /\ 0 <= x <= r /\ 0 <= y <= r.
Proof.
  intros Hr Hreach.
  assert (Hinv := bres_reach_strong_inv r x y d Hr Hreach).
  split; [apply Hinv |]. split; [| apply Hinv].
  split; [apply Hinv |].
  inversion Hreach as [| x0 y0 d0 ? ? ? Hprev Hxy Hu]; subst; [lia |].
  assert (Hp := bres_reach_strong_inv r x0 y0 d0 Hr Hprev).
  destruct (bres_strong_inv_step r x0 y0 d0 Hr Hp Hxy) as (y1 & d1 & E & _ & _).
  rewrite Hu in E. injection E as -> _ _.
  destruct Hp as (_ & _ & _ & _ & Hlt). specialize (Hlt Hxy). lia.
Qed.

Lemma bres_decision_closed_form_witness :
  1 <= 5 <= bres_max_radius /\
  bres_reach 5 2 4 5 /\
  5 = bres_d 5 2 4 /\ 0 <= 2 <= 5 /\ 0 <= 4 <= 5.
Proof.
  assert (Hr : 1 <= 5 <= bres_max_radius) by (unfold bres_max_radius; lia).
  assert (H0 : bres_reach 5 0 5 (-7)) by exact (reach_init 5).
  assert (H1 : bres_reach 5 1 5 3).
  { apply (reach_pass 5 0 5 (-7)); [exact H0 | lia | reflexivity]. }
  assert (H2 : bres_reach 5 2 4 5).
  { apply (reach_pass 5 1 5 3); [exact H1 | lia | reflexivity]. }
  split; [exact Hr |]. split; [exact H2 |].
  exact (bres_decision_closed_form 5 2 4 5 Hr H2).
Defined.

Lemma circleBres_loop_in_box r xc yc fuel : forall b x y d,
  1 <= r <= bres_max_radius ->
  canvas_shape b ->
  r <= xc < width (header b) - r ->
  r <= yc < height (header b) - r ->
  bres_strong_inv r x y d ->
  (Z.to_nat (y - x + 1) < fuel)%nat ->
  exists b', circleBres_loop fuel b xc yc x y d = Done b' /\
             canvas_shape b' /\ header b' = header b /\
             forall x0 y0, in_canvas b x0 y0 -> ~ in_box xc yc r x0 y0 ->
                           cell b' x0 y0 = cell b x0 y0.
Proof.
  induction fuel as [| fuel IH]; intros b x y d Hr Hs Hxc Hyc Hinv Hfuel; [lia |].
  simpl. destruct (Z.geb_spec y x) as [Hge | Hlt].
  2: { exists b. split; [reflexivity |]. split; [exact Hs |].
       split; reflexivity. }
  assert (Hi := Hinv). destruct Hi as (_ & Hx0 & Hy0 & _ & Hxr).
  assert (Hxlt : x < r) by (apply Hxr; lia).
  rewrite drawCircle_emission.
  destruct (emission_in_box b xc yc r x y Hs) as (b1 & E1 & Hs1 & Hh1 & F1); try lia.
  rewrite E1.
  destruct (bres_strong_inv_step r x y d Hr Hinv ltac:(lia))
    as (y' & d' & E & Ey & Hinv').
  rewrite E. rewrite drawCircle_emission.
  assert (Hy' : 0 <= y' <= r) by apply Hinv'.
  destruct (emission_in_box b1 xc yc r (x + 1) y' Hs1) as (b2 & E2 & Hs2 & Hh2 & F2);
    try (rewrite ?Hh1; lia).
  rewrite E2.
  destruct (IH b2 (x + 1) y' d' Hr Hs2) as (b3 & E3 & Hs3 & Hh3 & F3);
    try (rewrite ?Hh2, ?Hh1; lia); try assumption.
  exists b3. split; [exact E3 |]. split; [exact Hs3 |]. split; [congruence |].
  intros x0 y0 Hi0 Hout.
  assert (Hi1 : in_canvas b1 x0 y0) by (unfold in_canvas in *; rewrite Hh1; exact Hi0).
  assert (Hi2 : in_canvas b2 x0 y0) by (unfold in_canvas in *; rewrite Hh2; exact Hi1).
  rewrite (F3 x0 y0 Hi2 Hout), (F2 x0 y0 Hi1 Hout). apply F1; assumption.
Qed.

Lemma circleBres_in_box fuel b xc yc r :
  1 <= r <= bres_max_radius ->
  (Z.to_nat (r + 1) < fuel)%nat ->
  canvas_shape b ->
  r <= xc < width (header b) - r ->
  r <= yc < height (header b) - r ->
  exists b', circleBres fuel b xc yc r = Done b' /\
             canvas_shape b' /\ header b' = header b /\
             forall x0 y0, in_canvas b x0 y0 -> ~ in_box xc yc r x0 y0 ->
                           cell b' x0 y0 = cell b x0 y0.
Proof.
  intros Hr Hfuel Hs Hxc Hyc. unfold circleBres.
  apply (circleBres_loop_in_box r); try assumption.
  - apply bres_strong_inv_init. exact Hr.
  - rewrite Z.sub_0_r. exact Hfuel.
Qed.

(** A circle of radius [r], between 1 and [bres_max_radius], around a
    centre at least [r] away from every edge of the canvas: the run of
    [circleBres] is defined and ends, keeps the dimensions of the canvas,
    and changes no cell outside the square of half-side [r] around the
    centre.  No margin beyond [r] is needed. *)
Theorem circleBres_stays_in_box (fuel : nat) (b : bitmapData) (xc yc r : Z) :
  1 <= r <= bres_max_radius ->
  (Z.to_nat (r + 1) < fuel)%nat ->
  canvas_shape b ->
  r <= xc < width (header b) - r ->
  r <= yc < height (header b) - r ->
  exists b', circleBres fuel b xc yc r = Done b' /\
             canvas_shape b' /\ header b' = header b /\
             forall x0 y0, in_canvas b x0 y0 -> ~ in_box xc yc r x0 y0 ->
                           cell b' x0 y0 = cell b x0 y0.
Proof. apply circleBres_in_box. Qed.

Lemma circleBres_stays_in_box_witness :
  exists b', circleBres 5 (blank 9 7) 4 3 3 = Done b' /\
             canvas_shape b' /\ header b' = header (blank 9 7) /\
             forall x0 y0, in_canvas (blank 9 7) x0 y0 -> ~ in_box 4 3 3 x0 y0 ->
                           cell b' x0 y0 = cell (blank 9 7) x0 y0.
Proof.
  apply (circleBres_stays_in_box 5 (blank 9 7) 4 3 3).
  - unfold bres_max_radius. lia.
  - simpl. lia.
  - unfold canvas_shape, CInt.INT_MAX. simpl. repeat split; lia.
  - simpl. lia.
  - simpl. lia.
Defined.

(** No clipping: when the top of the circle, [yc + r], is not below the
    height of the canvas, the very first store of [circleBres], at
    [(xc, yc + r)], falls beyond the pixel buffer and the run is
    undefined.  This is so for the radius [height / 2] around the middle
    of a canvas of even height. *)
Theorem circleBres_beyond_bottom (fuel : nat) (b : bitmapData) (xc yc r : Z) :
  canvas_shape b ->
  0 <= r -> 0 <= xc < width (header b) ->
  height (header b) <= yc + r ->
  (yc + r + 1) * width (header b) <= CInt.INT_MAX ->
  circleBres (S fuel) b xc yc r = Undefined.
Proof.
  intros Hs Hr Hxc Hyc Hmax.
  destruct (canvas_shape_bounds b Hs) as (Hw & Hh & Hm).
  assert (Hl : length (pixelBuffer b) = Z.to_nat (width (header b) * height (header b)))
    by apply Hs.
  unfold CInt.INT_MAX in Hmax.
  assert (Hyr : 0 < yc + r <= 2147483646) by nia.
  unfold circleBres. simpl.
  destruct (Z.geb_spec r 0) as [_ | Hlt]; [| lia].
  unfold drawCircle.
  assert (E : putPixel b (CInt.add xc 0) (CInt.add yc r)
                (CInt.rem 0 255) (CInt.rem r 255) (CInt.sub 255 (CInt.rem 0 255)) = None).
  { unfold putPixel.
    assert (Hidx : GET_PIXEL_INDEX (CInt.add xc 0) (CInt.add yc r) (width (header b))
                   = xc + (yc + r) * width (header b)).
    { unfold GET_PIXEL_INDEX, CInt.add, CInt.mul.
      rewrite Z.add_0_r. rewrite (wrap_small xc) by lia.
      rewrite (wrap_small (yc + r)) by lia.
      rewrite (wrap_small (_ * _)) by nia. apply wrap_small. nia. }
    rewrite Hidx. unfold arr_set.
    destruct (Z.ltb_spec (xc + (yc + r) * width (header b))
                         (Z.of_nat (length (pixelBuffer b)))) as [Hin | _].
    - exfalso. rewrite Hl in Hin. nia.
    - rewrite andb_false_r. reflexivity. }
  rewrite E. reflexivity.
Qed.

Lemma circleBres_beyond_bottom_witness :
  circleBres 1 (blank 8 8) 4 4 4 = Undefined.
Proof.
  apply (circleBres_beyond_bottom 0 (blank 8 8) 4 4 4).
  - unfold canvas_shape, CInt.INT_MAX. simpl. repeat split; lia.
  - lia.
  - simpl. lia.
  - simpl. lia.
  - unfold CInt.INT_MAX. simpl. lia.
Defined.

(** ** The header as a reader of the file finds it *)

Lemma int_byte_bound v k : 0 <= int_byte v k < 256.
Proof. unfold int_byte. apply Z.mod_pos_bound. lia. Qed.

Lemma le_value_le_bytes_4 v : le_value (le_bytes 4 v) = v mod 4294967296.
Proof.
  unfold le_bytes, le_value, int_byte.
  change (seq 0 4) with [0; 1; 2; 3]%nat. cbn [map foldr].
  change (256 ^ Z.of_nat 0) with 1. change (256 ^ Z.of_nat 1) with 256.
  change (256 ^ Z.of_nat 2) with (256 * 256).
  change (256 ^ Z.of_nat 3) with (256 * 256 * 256).
  rewrite Z.div_1_r, <- !Z.div_div by lia.
  pose proof (Z.div_mod v 256 ltac:(lia)) as H0.
  pose proof (Z.mod_pos_bound v 256 ltac:(lia)) as B0.
  pose proof (Z.div_mod (v / 256) 256 ltac:(lia)) as H1.
  pose proof (Z.mod_pos_bound (v / 256) 256 ltac:(lia)) as B1.
  pose proof (Z.div_mod (v / 256 / 256) 256 ltac:(lia)) as H2.
  pose proof (Z.mod_pos_bound (v / 256 / 256) 256 ltac:(lia)) as B2.
  pose proof (Z.div_mod (v / 256 / 256 / 256) 256 ltac:(lia)) as H3.
  pose proof (Z.mod_pos_bound (v / 256 / 256 / 256) 256 ltac:(lia)) as B3.
  apply (Z.mod_unique v 4294967296 (v / 256 / 256 / 256 / 256)); lia.
Qed.

Lemma le_value_le_bytes_2 v : le_value (le_bytes 2 v) = v mod 65536.
Proof.
  unfold le_bytes, le_value, int_byte.
  change (seq 0 2) with [0; 1]%nat. cbn [map foldr].
  change (256 ^ Z.of_nat 0) with 1. change (256 ^ Z.of_nat 1) with 256.
  rewrite Z.div_1_r.
  pose proof (Z.div_mod v 256 ltac:(lia)) as H0.
  pose proof (Z.mod_pos_bound v 256 ltac:(lia)) as B0.
  pose proof (Z.div_mod (v / 256) 256 ltac:(lia)) as H1.
  pose proof (Z.mod_pos_bound (v / 256) 256 ltac:(lia)) as B1.
  apply (Z.mod_unique v 65536 (v / 256 / 256)); lia.
Qed.

Lemma field_in_header hd rest off n :
  (off + n <= 54)%nat ->
  field (header_bytes hd ++ rest) off n = le_value (take n (drop off (header_bytes hd))).
Proof.
  intros H. unfold field.
  rewrite drop_app_le by (rewrite length_header_bytes; lia).
  rewrite take_app_le by (rewrite length_drop, length_header_bytes; lia).
  reflexivity.
Qed.

(** What [writeBitmapData] leaves in the bitmap when it returns: the pixel
    buffer, the width, the height and the compression field as they were,
    the other fields of the header set. *)
Lemma writeBitmapData_bitmap out b stack st out' b' :
  writeBitmapData out b stack = Some (st, out', b') ->
  st = 0 /\
  pixelBuffer b' = pixelBuffer b /\
  width (header b') = width (header b) /\
  height (header b') = height (header b) /\
  compression (header b') = compression (header b) /\
  reserved (header b') = 0 /\
  xPixelsPerMeter (header b') = 0 /\ yPixelsPerMeter (header b') = 0 /\
  colorsUsed (header b') = 0 /\ colorsImportant (header b') = 0.
Proof.
  unfold writeBitmapData. intros H.
  destruct (BMP_BYTES_PER_LINE (width (header b)) BITCOUNT <=? 0); [discriminate |].
  destruct (for_loop _ _ _) as [[lb o] |]; simpl in H; [| discriminate].
  injection H as <- <- <-. repeat split; reflexivity.
Qed.

(** The encoder reads of the bitmap only the width, the height, the
    compression field and the pixel buffer. *)
Lemma writeBitmapData_ext out b1 b2 stack :
  width (header b1) = width (header b2) ->
  height (header b1) = height (header b2) ->
  compression (header b1) = compression (header b2) ->
  pixelBuffer b1 = pixelBuffer b2 ->
  writeBitmapData out b1 stack = writeBitmapData out b2 stack.
Proof.
  intros Hw Hh Hc Hp. unfold writeBitmapData. rewrite Hw, Hh, Hc, Hp. reflexivity.
Qed.

(** The header round trip: a reader of the file that a well-formed canvas
    is encoded to finds the letters B and M, then, as little-endian
    fields at the offsets of the format, the length of the file itself,
    the offset 54 of the pixel data, the header size 40, the width and the
    height of the canvas, one plane, 24 bits a pixel, the length of the
    pixel data, and zero in the reserved, resolution and colour fields.
    The compression field is not set by the encoder: the file carries
    what the bitmap held there. *)
Theorem writeBitmapData_header_decodes (out : FILE) (b : bitmapData)
    (stack : nat -> Z) :
  canvas_ok b ->
  54 + BMP_BYTES_PER_LINE (width (header b)) BITCOUNT * height (header b)
    <= Z.of_nat (froom out) ->
  exists out' b' file,
    writeBitmapData out b stack = Some (0, out', b') /\
    fbytes out' = fbytes out ++ file /\
    take 2 file = [66; 77] /\
    field file 2 4 = Z.of_nat (length file) /\
    field file 6 4 = 0 /\
    field file 10 4 = 54 /\
    field file 14 4 = 40 /\
    field file 18 4 = width (header b) /\
    field file 22 4 = height (header b) /\
    field file 26 2 = 1 /\
    field file 28 2 = 24 /\
    field file 30 4 = compression (header b) mod 4294967296 /\
    field file 34 4 = Z.of_nat (length file) - 54 /\
    field file 38 4 = 0 /\ field file 42 4 = 0 /\
    field file 46 4 = 0 /\ field file 50 4 = 0.
Proof.
  intros Hok Hroom.
  destruct (writeBitmapData_file out b stack Hok Hroom)
    as (out' & b' & E & Hb & Hrows & Hlen & Hi & Hf & Ho).
  destruct (writeBitmapData_spec out b stack Hok)
    as (b'' & E' & _ & _ & _ & _ & _ & _ & Hty & Hhs & Hpl & Hbc).
  rewrite E in E'. injection E' as _ <-.
  destruct (writeBitmapData_bitmap out b stack 0 out' b' E)
    as (_ & _ & Hw & Hh & Hc & Hre & Hxp & Hyp & Hcu & Hci).
  set (stride := BMP_BYTES_PER_LINE (width (header b)) BITCOUNT) in *.
  set (rows := map _ _) in *.
  exists out', b', (header_bytes (header b') ++ concat rows).
  split; [exact E |]. split; [exact Hb |].
  assert (Hwb : 0 < width (header b)) by apply Hok.
  assert (Hhb : 0 < height (header b)) by apply Hok.
  destruct (stride_bounds _ Hwb (proj1 (proj2 (proj2 Hok)))) as [Hsb _].
  fold stride in Hsb.
  assert (Hmax : stride * height (header b) + 54 <= 2147483647) by apply Hok.
  assert (Hfl : Z.of_nat (length (header_bytes (header b') ++ concat rows))
                = 54 + stride * height (header b)).
  { rewrite length_app, length_header_bytes.
    rewrite (length_concat_uniform _ (Z.to_nat stride)) by exact Hrows.
    rewrite Hlen. nia. }
  assert (Hwmax : width (header b) <= 2147483647) by nia.
  assert (Hhmax : height (header b) <= 2147483647) by nia.
  rewrite Hfl.
  rewrite !field_in_header by lia.
  split.
  { change (take 2 (header_bytes (header b') ++ concat rows))
      with [fst (bfType (header b')) mod 256; snd (bfType (header b')) mod 256].
    rewrite Hty. reflexivity. }
  change (take 4 (drop 2 (header_bytes (header b')))) with (le_bytes 4 (fileSize (header b'))).
  change (take 4 (drop 6 (header_bytes (header b')))) with (le_bytes 4 (reserved (header b'))).
  change (take 4 (drop 10 (header_bytes (header b')))) with (le_bytes 4 (imageOffset (header b'))).
  change (take 4 (drop 14 (header_bytes (header b')))) with (le_bytes 4 (headerSize (header b'))).
  change (take 4 (drop 18 (header_bytes (header b')))) with (le_bytes 4 (width (header b'))).
  change (take 4 (drop 22 (header_bytes (header b')))) with (le_bytes 4 (height (header b'))).
  change (take 2 (drop 26 (header_bytes (header b')))) with (le_bytes 2 (planes (header b'))).
  change (take 2 (drop 28 (header_bytes (header b')))) with (le_bytes 2 (bitCount (header b'))).
  change (take 4 (drop 30 (header_bytes (header b')))) with (le_bytes 4 (compression (header b'))).
  change (take 4 (drop 34 (header_bytes (header b')))) with (le_bytes 4 (imageSize (header b'))).
  change (take 4 (drop 38 (header_bytes (header b')))) with (le_bytes 4 (xPixelsPerMeter (header b'))).
  change (take 4 (drop 42 (header_bytes (header b')))) with (le_bytes 4 (yPixelsPerMeter (header b'))).
  change (take 4 (drop 46 (header_bytes (header b')))) with (le_bytes 4 (colorsUsed (header b'))).
  change (take 4 (drop 50 (header_bytes (header b')))) with (le_bytes 4 (colorsImportant (header b'))).
  rewrite !le_value_le_bytes_4, !le_value_le_bytes_2.
  rewrite Hf, Hre, Ho, Hhs, Hw, Hh, Hpl, Hbc, Hc, Hi, Hxp, Hyp, Hcu, Hci.
  assert (0 <= stride * height (header b)) by nia.
  repeat split; try reflexivity; try (apply Z.mod_small; lia).
  all: rewrite Z.mod_small by lia; lia.
Qed.

Lemma writeBitmapData_header_decodes_witness :
  exists out' b' file,
    writeBitmapData (fresh_stream 100) sample_2x2 (stack_of 0) = Some (0, out', b') /\
    fbytes out' = fbytes (fresh_stream 100) ++ file /\
    take 2 file = [66; 77] /\
    field file 2 4 = Z.of_nat (length file) /\
    field file 6 4 = 0 /\
    field file 10 4 = 54 /\
    field file 14 4 = 40 /\
    field file 18 4 = width (header sample_2x2) /\
    field file 22 4 = height (header sample_2x2) /\
    field file 26 2 = 1 /\
    field file 28 2 = 24 /\
    field file 30 4 = compression (header sample_2x2) mod 4294967296 /\
    field file 34 4 = Z.of_nat (length file) - 54 /\
    field file 38 4 = 0 /\ field file 42 4 = 0 /\
    field file 46 4 = 0 /\ field file 50 4 = 0.
Proof.
  apply (writeBitmapData_header_decodes (fresh_stream 100) sample_2x2 (stack_of 0)).
  - exact canvas_ok_sample_2x2.
  - vm_compute. discriminate.
Defined.

(** ** Encoding again, and encoding into a short stream *)

Lemma canvas_ok_same b1 b2 :
  width (header b1) = width (header b2) ->
  height (header b1) = height (header b2) ->
  pixelBuffer b1 = pixelBuffer b2 ->
  canvas_ok b1 -> canvas_ok b2.
Proof. unfold canvas_ok. intros <- <- <-. auto. Qed.

(** Encoding leaves the pixels alone and is repeatable: the bitmap that
    [writeBitmapData] returns, with its header filled in, is again a
    well-formed canvas with the same pixel buffer, and encoding it once
    more, into the same stream and over the same stack, gives the same
    file and the same bitmap. *)
Theorem writeBitmapData_again (out : FILE) (b : bitmapData) (stack : nat -> Z) :
  canvas_ok b ->
  exists out' b',
    writeBitmapData out b stack = Some (0, out', b') /\
    pixelBuffer b' = pixelBuffer b /\
    canvas_ok b' /\
    writeBitmapData out b' stack = Some (0, out', b').
Proof.
  intros Hok.
  destruct (writeBitmapData_spec out b stack Hok) as (b' & E & _).
  destruct (writeBitmapData_bitmap out b stack _ _ b' E)
    as (_ & Hp & Hw & Hh & Hc & _).
  eexists _, b'. split; [exact E |]. split; [exact Hp |].
  split; [apply (canvas_ok_same b b'); auto |].
  rewrite (writeBitmapData_ext out b' b stack Hw Hh Hc Hp). exact E.
Qed.

Lemma writeBitmapData_again_witness :
  exists out' b',
    writeBitmapData (fresh_stream 100) sample_2x2 (stack_of 7) = Some (0, out', b') /\
    pixelBuffer b' = pixelBuffer sample_2x2 /\
    canvas_ok b' /\
    writeBitmapData (fresh_stream 100) b' (stack_of 7) = Some (0, out', b').
Proof.
  exact (writeBitmapData_again (fresh_stream 100) sample_2x2 (stack_of 7)
           canvas_ok_sample_2x2).
Defined.

Lemma fwrite_take data size nmemb out :
  length data = Z.to_nat (size * nmemb) ->
  snd (fwrite data size nmemb out) =
    {| fbytes := fbytes out ++ take (froom out) data;
       froom := (froom out - length data)%nat |}.
Proof.
  intros Hl. unfold fwrite. cbn [snd]. rewrite <- Hl.
  destruct (Nat.le_gt_cases (length data) (froom out)) as [Hle | Hgt].
  - rewrite Nat.min_l by exact Hle. rewrite !take_ge by lia. reflexivity.
  - rewrite Nat.min_r by lia. f_equal. lia.
Qed.

Lemma write_all_take rows : forall n out,
  Forall (fun row => length row = Z.to_nat n) rows ->
  fbytes (write_all rows n out) = fbytes out ++ take (froom out) (concat rows) /\
  froom (write_all rows n out) = (froom out - length (concat rows))%nat.
Proof.
  induction rows as [| row rest IH]; intros n out Hall.
  - simpl. rewrite take_nil, app_nil_r. split; [reflexivity | lia].
  - inversion Hall as [| ? ? Hrow Hrest]; subst.
    change (write_all (row :: rest) n out)
      with (write_all rest n (snd (fwrite row 1 n out))).
    rewrite fwrite_take by (rewrite Z.mul_1_l; exact Hrow).
    destruct (IH n {| fbytes := fbytes out ++ take (froom out) row;
                      froom := (froom out - length row)%nat |} Hrest) as [Hb Hf].
    rewrite Hb, Hf. cbn [fbytes froom concat].
    rewrite take_app, length_app, <- app_assoc. split; [reflexivity | lia].
Qed.

(** A stream that is too short gets the beginning of the file and no
    error: for a well-formed canvas and any stream, [writeBitmapData]
    returns 0, and what the stream has gained is the first [froom] bytes
    of the full encoding, the header followed by the rows from the last
    to the first. *)
Theorem writeBitmapData_short_stream (out : FILE) (b : bitmapData)
    (stack : nat -> Z) :
  canvas_ok b ->
  exists out' b' file,
    writeBitmapData out b stack = Some (0, out', b') /\
    file = header_bytes (header b') ++
           concat (map (fun y => scanline b y ++
                          padding b (uninitialised stack
                            (BMP_BYTES_PER_LINE (width (header b)) BITCOUNT)))
                       (countdown (Z.to_nat (height (header b))))) /\
    Z.of_nat (length file) =
      54 + BMP_BYTES_PER_LINE (width (header b)) BITCOUNT * height (header b) /\
    fbytes out' = fbytes out ++ take (froom out) file /\
    froom out' = (froom out - length file)%nat.
Proof.
  intros Hok.
  pose proof (canvas_ok_shape b Hok) as Hshape.
  destruct (writeBitmapData_spec out b stack Hok) as (b' & E & _).
  set (stride := BMP_BYTES_PER_LINE (width (header b)) BITCOUNT) in *.
  set (rows := map _ _) in *.
  assert (Hw : 0 < width (header b)) by apply Hok.
  assert (Hh : 0 < height (header b)) by apply Hok.
  destruct (stride_bounds _ Hw (proj1 (proj2 (proj2 Hok)))) as [Hsb _].
  fold stride in Hsb.
  assert (Hrows : Forall (fun row => length row = Z.to_nat stride) rows).
  { apply encoded_rows_length;
      [exact Hshape | apply length_padding; [lia | exact Hw] |].
    eapply Forall_impl; [apply countdown_range |]. simpl. intros; lia. }
  assert (Hlen : length rows = Z.to_nat (height (header b))).
  { unfold rows. rewrite length_map, length_countdown. reflexivity. }
  eexists _, b', _. split; [exact E |]. split; [reflexivity |].
  split.
  { rewrite length_app, length_header_bytes.
    rewrite (length_concat_uniform _ (Z.to_nat stride)) by exact Hrows.
    rewrite Hlen. nia. }
  rewrite fwrite_take by (rewrite length_header_bytes; reflexivity).
  destruct (write_all_take rows stride
              {| fbytes := fbytes out ++ take (froom out) (header_bytes (header b'));
                 froom := (froom out - length (header_bytes (header b')))%nat |} Hrows)
    as [Hb Hf].
  rewrite Hb, Hf. cbn [fbytes froom].
  rewrite take_app, length_app, <- app_assoc. split; [reflexivity | lia].
Qed.

Lemma writeBitmapData_short_stream_witness :
  emitted_from 0 (writeBitmapData (fresh_stream 60) sample_2x2 (stack_of 0))
    = Some [66; 77; 70; 0; 0; 0; 0; 0; 0; 0; 54; 0; 0; 0; 40; 0; 0; 0; 2; 0; 0; 0;
            2; 0; 0; 0; 1; 0; 24; 0; 0; 0; 0; 0; 16; 0; 0; 0; 0; 0; 0; 0; 0; 0;
            0; 0; 0; 0; 0; 0; 0; 0; 0; 0; 9; 8; 7; 12; 11; 10] /\
  exists out' b' file,
    writeBitmapData (fresh_stream 60) sample_2x2 (stack_of 0) = Some (0, out', b') /\
    file = header_bytes (header b') ++
           concat (map (fun y => scanline sample_2x2 y ++
                          padding sample_2x2 (uninitialised (stack_of 0)
                            (BMP_BYTES_PER_LINE (width (header sample_2x2)) BITCOUNT)))
                       (countdown (Z.to_nat (height (header sample_2x2))))) /\
    Z.of_nat (length file) =
      54 + BMP_BYTES_PER_LINE (width (header sample_2x2)) BITCOUNT
           * height (header sample_2x2) /\
    fbytes out' = fbytes (fresh_stream 60) ++ take (froom (fresh_stream 60)) file /\
    froom out' = (froom (fresh_stream 60) - length file)%nat.
Proof.
  split; [vm_compute; reflexivity |].
  exact (writeBitmapData_short_stream (fresh_stream 60) sample_2x2 (stack_of 0)
           canvas_ok_sample_2x2).
Defined.

Lemma lookup_concat_uniform {A : Type} (rows : list (list A)) n i :
  Forall (fun row => length row = n) rows -> (i < n)%nat ->
  forall k row, rows !! k = Some row ->
  concat rows !! (k * n + i)%nat = row !! i.
Proof.
  intros Hall Hi. induction Hall as [| r rest Hr _ IH]; intros k row Hk.
  - discriminate.
  - destruct k as [| k]; cbn [concat].
    + injection Hk as ->. cbn [Nat.mul Nat.add].
      apply lookup_app_l. lia.
    + cbn [lookup list_lookup] in Hk.
      replace (S k * n + i)%nat with (length r + (k * n + i))%nat by (rewrite Hr; lia).
      rewrite lookup_app_r by lia.
      replace (length r + (k * n + i) - length r)%nat with (k * n + i)%nat by lia.
      apply IH. exact Hk.
Qed.

(** The padding of every scanline: the file that the encoder writes for a
    well-formed canvas is the header followed by [height] rows of
    [row-stride] bytes each, and in every one of these rows each byte at a
    position [i] with [3 * width <= i < row-stride] is the byte that the
    stack held at the offset [i] of the line buffer when it was declared.
    In the file these are the bytes at the offsets
    [54 + k * row-stride + i], for every row number [k] below the height:
    the encoder never writes them. *)
Theorem writeBitmapData_padding (out : FILE) (b : bitmapData) (stack : nat -> Z) :
  canvas_ok b ->
  54 + BMP_BYTES_PER_LINE (width (header b)) BITCOUNT * height (header b)
    <= Z.of_nat (froom out) ->
  exists out' b' rows,
    writeBitmapData out b stack = Some (0, out', b') /\
    fbytes out' = fbytes out ++ header_bytes (header b') ++ concat rows /\
    length rows = Z.to_nat (height (header b)) /\
    Forall (fun row => length row =
                       Z.to_nat (BMP_BYTES_PER_LINE (width (header b)) BITCOUNT)) rows /\
    (forall row i,
       row ∈ rows ->
       3 * width (header b) <= i < BMP_BYTES_PER_LINE (width (header b)) BITCOUNT ->
       row !! Z.to_nat i = Some (stack (Z.to_nat i) mod 256)) /\
    (forall k i,
       0 <= k < height (header b) ->
       3 * width (header b) <= i < BMP_BYTES_PER_LINE (width (header b)) BITCOUNT ->
       fbytes out' !! (length (fbytes out) + 54 +
                       Z.to_nat (k * BMP_BYTES_PER_LINE (width (header b)) BITCOUNT + i))%nat
       = Some (stack (Z.to_nat i) mod 256)).
Proof.
  intros Hok Hroom.
  pose proof (canvas_ok_shape b Hok) as Hshape.
  destruct (writeBitmapData_file out b stack Hok Hroom)
    as (out' & b' & E & Hb & Hrows & Hlen & _).
  set (stride := BMP_BYTES_PER_LINE (width (header b)) BITCOUNT) in *.
  set (rows := map _ _) in *.
  assert (Hrow : forall row i, row ∈ rows ->
            3 * width (header b) <= i < stride ->
            row !! Z.to_nat i = Some (stack (Z.to_nat i) mod 256)).
  { intros row i Hin Hi. unfold rows in Hin.
    change (map ?f ?l) with (f <$> l) in Hin.
    apply list_elem_of_fmap in Hin as (y & -> & Hy).
    apply padded_row_lookup; [exact Hshape | | exact Hi].
    pose proof (countdown_range (Z.to_nat (height (header b)))) as Hr.
    rewrite Forall_forall in Hr. specialize (Hr y Hy). lia. }
  exists out', b', rows. split; [exact E |]. split; [exact Hb |].
  split; [exact Hlen |]. split; [exact Hrows |]. split; [exact Hrow |].
  intros k i Hk Hi.
  assert (Hw : 0 < width (header b)) by apply Hok.
  destruct (lookup_lt_is_Some_2 rows (Z.to_nat k)) as [row Hrk]; [lia |].
  rewrite Hb.
  rewrite <- Nat.add_assoc, lookup_app_r by lia.
  replace (length (fbytes out) + (54 + Z.to_nat (k * stride + i)) - length (fbytes out))%nat
    with (54 + Z.to_nat (k * stride + i))%nat by lia.
  rewrite lookup_app_r by (rewrite length_header_bytes; lia).
  rewrite length_header_bytes.
  replace (54 + Z.to_nat (k * stride + i) - 54)%nat
    with (Z.to_nat k * Z.to_nat stride + Z.to_nat i)%nat by nia.
  rewrite (lookup_concat_uniform rows (Z.to_nat stride) (Z.to_nat i) Hrows ltac:(lia)
             (Z.to_nat k) row Hrk).
  apply Hrow; [| exact Hi].
  eapply list_elem_of_lookup_2. exact Hrk.
Qed.

Lemma writeBitmapData_padding_witness :
  emitted_from 54 (writeBitmapData (fresh_stream 100) sample_2x2 (stack_of 170))
    = Some [9; 8; 7; 12; 11; 10; 170; 170; 3; 2; 1; 6; 5; 4; 170; 170] /\
  exists out' b' rows,
    writeBitmapData (fresh_stream 100) sample_2x2 (stack_of 170) = Some (0, out', b') /\
    fbytes out' = fbytes (fresh_stream 100) ++ header_bytes (header b') ++ concat rows /\
    length rows = Z.to_nat (height (header sample_2x2)) /\
    Forall (fun row => length row =
              Z.to_nat (BMP_BYTES_PER_LINE (width (header sample_2x2)) BITCOUNT)) rows /\
    (forall row i,
       row ∈ rows ->
       3 * width (header sample_2x2) <= i
         < BMP_BYTES_PER_LINE (width (header sample_2x2)) BITCOUNT ->
       row !! Z.to_nat i = Some (stack_of 170 (Z.to_nat i) mod 256)) /\
    (forall k i,
       0 <= k < height (header sample_2x2) ->
       3 * width (header sample_2x2) <= i
         < BMP_BYTES_PER_LINE (width (header sample_2x2)) BITCOUNT ->
       fbytes out' !! (length (fbytes (fresh_stream 100)) + 54 +
                       Z.to_nat (k * BMP_BYTES_PER_LINE (width (header sample_2x2)) BITCOUNT
                                 + i))%nat
       = Some (stack_of 170 (Z.to_nat i) mod 256)).
Proof.
  split; [vm_compute; reflexivity |].
  apply (writeBitmapData_padding (fresh_stream 100) sample_2x2 (stack_of 170)).
  - exact canvas_ok_sample_2x2.
  - vm_compute. discriminate.
Defined.

(** A canvas without rows: for a positive width and a height that is zero
    or negative, the row loop does not run, and [writeBitmapData] hands
    to the stream the 54 bytes of the header and nothing else, whatever
    the pixel buffer. *)
Theorem writeBitmapData_no_rows (out : FILE) (b : bitmapData) (stack : nat -> Z) :
  0 < width (header b) -> width (header b) * 24 + 31 <= CInt.INT_MAX ->
  CInt.INT_MIN < height (header b) <= 0 ->
  exists out' b',
    writeBitmapData out b stack = Some (0, out', b') /\
    fbytes out' = fbytes out ++ take (froom out) (header_bytes (header b')) /\
    length (header_bytes (header b')) = 54%nat /\
    pixelBuffer b' = pixelBuffer b.
Proof.
  intros Hw Hm Hh. unfold CInt.INT_MIN in Hh.
  destruct (stride_bounds _ Hw Hm) as [Hsb _].
  unfold writeBitmapData.
  destruct (Z.leb_spec (BMP_BYTES_PER_LINE (width (header b)) BITCOUNT) 0); [lia |].
  cbn [height].
  replace (Z.to_nat (CInt.sub (height (header b)) 1 + 1)) with 0%nat
    by (unfold CInt.sub; rewrite wrap_small by lia; lia).
  cbn [countdown for_loop]. cbn [mbind option_bind snd].
  eexists _, _. split; [reflexivity |].
  cbn [header pixelBuffer].
  split; [| split; reflexivity].
  rewrite fwrite_take by reflexivity. reflexivity.
Qed.

Lemma writeBitmapData_no_rows_witness :
  exists out' b',
    writeBitmapData (fresh_stream 100) (blank 3 0) (stack_of 0) = Some (0, out', b') /\
    fbytes out' = fbytes (fresh_stream 100)
                  ++ take (froom (fresh_stream 100)) (header_bytes (header b')) /\
    length (header_bytes (header b')) = 54%nat /\
    pixelBuffer b' = pixelBuffer (blank 3 0).
Proof.
  apply (writeBitmapData_no_rows (fresh_stream 100) (blank 3 0) (stack_of 0)).
  - simpl. lia.
  - unfold CInt.INT_MAX. simpl. lia.
  - unfold CInt.INT_MIN. simpl. lia.
Defined.

(** ** Creation and release *)

Lemma freeBitmap_restores hp n b :
  0 <= n -> length (pixelBuffer b) = Z.to_nat n ->
  freeBitmap {| free_bytes := free_bytes hp - sizeof_bitmapData - n * 4;
                live_blocks := S (S (live_blocks hp)) |} (Some b) = hp.
Proof.
  intros Hn Hl. unfold freeBitmap, free, sizeof_bitmapData.
  cbn [free_bytes live_blocks pred]. rewrite Hl, Z2Nat.id by exact Hn.
  destruct hp as [fb lb]. cbn [free_bytes live_blocks]. f_equal. lia.
Qed.

Lemma to_size_t_nonneg z : 0 <= CInt.to_size_t z.
Proof.
  unfold CInt.to_size_t, CInt.SIZE_MAX. apply Z.mod_pos_bound. lia.
Qed.

(** Creation then release gives the heap back: whatever the dimensions
    and the heap, and whether [newBitmap] succeeds or fails, passing its
    result to [freeBitmap] leaves the heap exactly as it was before the
    creation, with as many free bytes and as many blocks in use. *)
Theorem newBitmap_freeBitmap (hp : heap) (w h : Z) :
  freeBitmap (snd (newBitmap hp w h)) (fst (newBitmap hp w h)) = hp /\
  freeBitmap hp None = hp.
Proof.
  split; [| reflexivity].
  rewrite newBitmap_cases.
  destruct ((sizeof_bitmapData <=? free_bytes hp) && _); cbn [fst snd].
  - apply freeBitmap_restores; [apply to_size_t_nonneg |].
    cbn [pixelBuffer]. apply length_replicate.
  - reflexivity.
Qed.

(** ** The whole program *)

Lemma new_canvas_shape w h n :
  0 < w -> 0 < h -> w * h <= CInt.INT_MAX -> n = w * h ->
  canvas_shape {| header := header (blank w h);
                  pixelBuffer := replicate (Z.to_nat n) 0 |}.
Proof.
  intros Hw Hh Hm ->. unfold canvas_shape. cbn [header pixelBuffer blank width height].
  repeat split; try assumption. apply length_replicate.
Qed.

Lemma canvas_shape_ok b :
  canvas_shape b ->
  width (header b) * 24 + 31 <= CInt.INT_MAX ->
  BMP_BYTES_PER_LINE (width (header b)) BITCOUNT * height (header b) + 54
    <= CInt.INT_MAX ->
  canvas_ok b.
Proof.
  unfold canvas_shape, canvas_ok. intros (Hw & Hh & _ & Hl) H1 H2.
  repeat split; assumption.
Qed.

(** The rings of [main]: circles of radius [radiusStart - 1] down to 1
    around a centre that is at least [radiusStart - 1] away from the
    edges are all defined and keep the shape of the canvas. *)
Lemma draw_rings_in_canvas fuel xc yc : forall k b,
  canvas_shape b ->
  (k < fuel)%nat ->
  Z.of_nat k <= bres_max_radius + 1 ->
  Z.of_nat k - 1 <= xc < width (header b) - (Z.of_nat k - 1) ->
  Z.of_nat k - 1 <= yc < height (header b) - (Z.of_nat k - 1) ->
  exists b', draw_rings fuel k b xc yc = Done b' /\
             canvas_shape b' /\ header b' = header b.
Proof.
  induction k as [| k IH]; intros b Hs Hfuel Hk Hxc Hyc.
  - exists b. split; [reflexivity |]. split; [exact Hs | reflexivity].
  - cbn [draw_rings]. destruct (Z.gtb_spec (Z.of_nat k) 0) as [Hpos | Hzero].
    + destruct (circleBres_in_box fuel b xc yc (Z.of_nat k)) as (b1 & E & Hs1 & Hh1 & _);
        try lia; try assumption.
      rewrite E.
      destruct (IH b1 Hs1) as (b2 & E2 & Hs2 & Hh2); try (rewrite ?Hh1; lia).
      exists b2. split; [exact E2 |]. split; [exact Hs2 | congruence].
    + exists b. split; [reflexivity |]. split; [exact Hs | reflexivity].
Qed.

Lemma writeBitmapData_length out b stack st out' b' :
  canvas_ok b ->
  54 + BMP_BYTES_PER_LINE (width (header b)) BITCOUNT * height (header b)
    <= Z.of_nat (froom out) ->
  writeBitmapData out b stack = Some (st, out', b') ->
  Z.of_nat (length (fbytes out')) =
    Z.of_nat (length (fbytes out)) + 54 +
    BMP_BYTES_PER_LINE (width (header b)) BITCOUNT * height (header b).
Proof.
  intros Hok Hroom E.
  destruct (writeBitmapData_file out b stack Hok Hroom)
    as (out2 & b2 & E2 & Hb & Hrows & Hlen & _).
  rewrite E in E2. injection E2 as -> -> ->.
  rewrite Hb, !length_app, length_header_bytes.
  rewrite (length_concat_uniform _ _ Hrows), Hlen.
  assert (0 < height (header b)) by apply Hok.
  assert (0 < width (header b)) by apply Hok.
  destruct (stride_bounds _ H0 (proj1 (proj2 (proj2 Hok)))) as [Hsb _].
  nia.
Qed.

(** The program as a whole: with fuel for its largest circle, [main] runs
    to its end without any undefined store, and leaves the heap exactly as
    it found it.  Its exit status is -1 exactly when the heap cannot hold
    the canvas (64 bytes for the structure and 4 bytes for each of the
    1024 x 1024 cells) or the file myBitmap.bmp cannot be opened, and 0
    otherwise; when the device has room, the file written has
    54 + 3072 * 1024 bytes. *)
Theorem main_runs (fuel : nat) (hp : heap) (fs : filesystem) (stack : nat -> Z) :
  (512 < fuel)%nat ->
  exists st f,
    BitmapProgram.main fuel hp fs stack = Done (st, hp, f) /\
    (st = -1 <-> free_bytes hp < 4194368 \/ fs "myBitmap.bmp"%string = None) /\
    (st = 0 <-> 4194368 <= free_bytes hp /\ fs "myBitmap.bmp"%string <> None) /\
    (forall room,
       4194368 <= free_bytes hp -> fs "myBitmap.bmp"%string = Some room ->
       3145782 <= Z.of_nat room ->
       exists file, f = Some file /\ Z.of_nat (length (fbytes file)) = 3145782).
Proof.
  intros Hfuel. unfold BitmapProgram.main. cbv zeta.
  rewrite newBitmap_cases.
  change (CInt.to_size_t (CInt.mul 1024 1024)) with 1048576.
  change (1048576 * 4) with 4194304. change sizeof_bitmapData with 64.
  change (4194304 <=? CInt.SIZE_MAX) with true. cbn [andb].
  destruct (Z.leb_spec 64 (free_bytes hp)) as [H1 | H1]; cbn [andb].
  2: { exists (-1), None. split; [reflexivity |].
       split; [split; [intros _; left; lia | reflexivity] |].
       split; [split; [discriminate | intros [? _]; lia] |].
       intros room Hfree. lia. }
  destruct (Z.leb_spec 4194304 (free_bytes hp - 64)) as [H2 | H2].
  2: { exists (-1), None. split; [reflexivity |].
       split; [split; [intros _; left; lia | reflexivity] |].
       split; [split; [discriminate | intros [? _]; lia] |].
       intros room Hfree. lia. }
  change (if 1024 >? 1024 then CInt.div 1024 2 else CInt.div 1024 2) with 512.
  change (CInt.div 1024 2) with 512.
  set (b0 := {| header := header (blank 1024 1024);
                pixelBuffer := replicate (Z.to_nat 1048576) 0 |}).
  assert (Hs0 : canvas_shape b0).
  { apply new_canvas_shape; unfold CInt.INT_MAX; lia. }
  assert (Hw0 : width (header b0) = 1024) by reflexivity.
  assert (Hh0 : height (header b0) = 1024) by reflexivity.
  destruct (draw_rings_in_canvas fuel 512 512 (Z.to_nat 512) b0 Hs0)
    as (b1 & E1 & Hs1 & Hh1); try (unfold bres_max_radius; rewrite ?Hw0, ?Hh0; lia).
  rewrite E1.
  assert (Hw1 : width (header b1) = 1024) by (rewrite Hh1; exact Hw0).
  assert (Hhh1 : height (header b1) = 1024) by (rewrite Hh1; exact Hh0).
  assert (Hok1 : canvas_ok b1).
  { apply canvas_shape_ok; [exact Hs1 | |]; rewrite Hw1, ?Hhh1.
    - unfold CInt.INT_MAX. lia.
    - change (BMP_BYTES_PER_LINE 1024 BITCOUNT) with 3072. unfold CInt.INT_MAX. lia. }
  assert (Hl1 : length (pixelBuffer b1) = Z.to_nat 1048576).
  { destruct Hs1 as (_ & _ & _ & Hl). rewrite Hl, Hw1, Hhh1. reflexivity. }
  unfold saveBitmap, fopen.
  destruct (fs "myBitmap.bmp"%string) as [room |] eqn:Efs; cbn [mbind option_bind].
  - destruct (writeBitmapData_spec {| fbytes := []; froom := room |} b1 stack Hok1)
      as (b2 & E2 & Hp2 & _).
    rewrite E2. cbn [mbind option_bind fst snd].
    eexists 0, _. split.
    { do 2 f_equal. f_equal.
      apply (freeBitmap_restores hp 1048576 b2); [lia |].
      rewrite Hp2. exact Hl1. }
    split; [split; [discriminate | intros [? | ?]; [lia | discriminate]] |].
    split; [split; [intros _; split; [lia | discriminate] | reflexivity] |].
    intros room' _ Er Hroom. injection Er as <-.
    eexists. split; [reflexivity |].
    assert (Hroom' : 54 + BMP_BYTES_PER_LINE (width (header b1)) BITCOUNT
                          * height (header b1)
                     <= Z.of_nat (froom {| fbytes := []; froom := room |})).
    { cbn [froom]. rewrite Hw1, Hhh1.
      change (BMP_BYTES_PER_LINE 1024 BITCOUNT) with 3072. lia. }
    rewrite (writeBitmapData_length _ b1 stack _ _ _ Hok1 Hroom' E2).
    cbn [fbytes length]. rewrite Hw1, Hhh1.
    change (BMP_BYTES_PER_LINE 1024 BITCOUNT) with 3072. lia.
  - exists (-1), None. split.
    { do 2 f_equal. f_equal.
      apply (freeBitmap_restores hp 1048576 b1); [lia | exact Hl1]. }
    split; [split; [intros _; right; reflexivity | reflexivity] |].
    split; [split; [discriminate | intros [_ Hne]; congruence] |].
    intros room _ Er. discriminate.
Qed.

Lemma main_runs_witness :
  exists st f,
    BitmapProgram.main 513 {| free_bytes := 5000000; live_blocks := 0 |}
      (fs_with_room (Z.to_nat 4000000)) (stack_of 0)
    = Done (st, {| free_bytes := 5000000; live_blocks := 0 |}, f) /\
    (st = -1 <->
       free_bytes {| free_bytes := 5000000; live_blocks := 0 |} < 4194368 \/
       fs_with_room (Z.to_nat 4000000) "myBitmap.bmp"%string = None) /\
    (st = 0 <->
       4194368 <= free_bytes {| free_bytes := 5000000; live_blocks := 0 |} /\
       fs_with_room (Z.to_nat 4000000) "myBitmap.bmp"%string <> None) /\
    (forall room,
       4194368 <= free_bytes {| free_bytes := 5000000; live_blocks := 0 |} ->
       fs_with_room (Z.to_nat 4000000) "myBitmap.bmp"%string = Some room ->
       3145782 <= Z.of_nat room ->
       exists file, f = Some file /\ Z.of_nat (length (fbytes file)) = 3145782).
Proof.
  apply (main_runs 513 {| free_bytes := 5000000; live_blocks := 0 |}
           (fs_with_room (Z.to_nat 4000000)) (stack_of 0)).
  lia.
Defined.

(** * Part IV: the growable string *)

(** ** Strings and blocks *)

Lemma strlen_chars (chars : list Z) rest :
  Forall (fun c => c <> 0) chars ->
  strlen (chars ++ 0 :: rest) = Some (Z.of_nat (length chars)).
Proof.
  induction 1 as [| c chars Hc _ IH]; simpl; [reflexivity |].
  destruct (Z.eqb_spec c 0) as [E | _]; [contradiction |].
  rewrite IH. simpl. f_equal. lia.
Qed.

Lemma strlen_no_nul (s : list Z) :
  Forall (fun c => c <> 0) s -> strlen s = None.
Proof.
  induction 1 as [| c s Hc _ IH]; simpl; [reflexivity |].
  destruct (Z.eqb_spec c 0) as [E | _]; [contradiction |].
  rewrite IH. reflexivity.
Qed.

Lemma take_chars (chars : list Z) rest :
  take (Z.to_nat (Z.of_nat (length chars) + 1)) (chars ++ 0 :: rest) = c_string chars.
Proof.
  replace (Z.to_nat (Z.of_nat (length chars) + 1)) with (length chars + 1)%nat by lia.
  unfold c_string. rewrite take_app_add'. - reflexivity. - reflexivity.
Qed.

Lemma length_c_string chars : length (c_string chars) = S (length chars).
Proof. unfold c_string. rewrite length_app. simpl. lia. Qed.

Lemma strncpy_bytes_chars (chars : list Z) rest :
  Forall (fun c => c <> 0) chars ->
  strncpy_bytes (chars ++ rest) (length chars) = Some chars.
Proof.
  induction 1 as [| c chars Hc _ IH]; simpl; [reflexivity |].
  destruct (Z.eqb_spec c 0) as [E | _]; [contradiction |].
  rewrite IH. reflexivity.
Qed.

Lemma to_size_t_small z : 0 <= z <= CInt.SIZE_MAX -> CInt.to_size_t z = z.
Proof.
  unfold CInt.to_size_t, CInt.SIZE_MAX. intros H. apply Z.mod_small. lia.
Qed.

Lemma malloc_fits bytes hp :
  0 <= bytes <= CInt.INT_MAX -> bytes <= free_bytes hp ->
  malloc bytes hp = Some {| free_bytes := free_bytes hp - bytes;
                            live_blocks := S (live_blocks hp) |}.
Proof.
  unfold CInt.INT_MAX, malloc, CInt.SIZE_MAX. intros Hb Hf.
  destruct (Z.leb_spec bytes 18446744073709551615); [| lia].
  destruct (Z.leb_spec bytes (free_bytes hp)); [| lia]. reflexivity.
Qed.

Lemma malloc_fails bytes hp :
  free_bytes hp < bytes -> malloc bytes hp = None.
Proof.
  unfold malloc. intros Hf.
  destruct (Z.leb_spec bytes (free_bytes hp)); [lia |].
  rewrite andb_false_r. reflexivity.
Qed.

(** ** Setting a string *)

Lemma cString_set_ok string chars rest hp :
  Forall (fun c => c <> 0) chars ->
  Z.of_nat (length chars) + 1 <= CInt.INT_MAX ->
  Z.of_nat (length chars) + 1 <= free_bytes hp ->
  cString_set string (chars ++ 0 :: rest) hp =
    Some (Z.of_nat (length chars) + 1,
          {| text := Some (c_string chars); len := Z.of_nat (length chars) + 1 |},
          {| free_bytes := free_bytes hp - (Z.of_nat (length chars) + 1);
             live_blocks := S (live_blocks hp) |}).
Proof.
  intros Hc Hmax Hfree. unfold cString_set, strdup.
  rewrite strlen_chars by exact Hc. cbn [mbind option_bind].
  rewrite malloc_fits by (unfold CInt.INT_MAX in *; lia).
  cbn [mbind option_bind fst snd]. rewrite take_chars.
  unfold CInt.INT_MAX in Hmax.
  rewrite to_size_t_small by (unfold CInt.SIZE_MAX; lia).
  cbn [len]. rewrite wrap_small by lia. reflexivity.
Qed.

Lemma cString_set_no_memory string chars rest hp :
  Forall (fun c => c <> 0) chars ->
  free_bytes hp < Z.of_nat (length chars) + 1 ->
  cString_set string (chars ++ 0 :: rest) hp =
    Some (-1, {| text := None; len := len string |}, hp).
Proof.
  intros Hc Hfree. unfold cString_set, strdup.
  rewrite strlen_chars by exact Hc. cbn [mbind option_bind].
  rewrite malloc_fails by exact Hfree. reflexivity.
Qed.

(** Set and measure: [cString_set] with a C string of [n] characters
    (whatever follows its NUL in memory) either finds [n + 1] free bytes,
    and then returns [n + 1] and leaves a private copy of the characters
    with their NUL, of which [cString_len] is [n]; or it does not, and then
    returns -1 with a [NULL] text and the length field as it was, and
    leaves the heap alone. *)
Theorem cString_set_then_len (string : cString) (chars rest : list Z) (hp : heap) :
  Forall (fun c => c <> 0) chars ->
  Z.of_nat (length chars) + 1 <= CInt.INT_MAX ->
  exists st string' hp',
    cString_set string (chars ++ 0 :: rest) hp = Some (st, string', hp') /\
    (Z.of_nat (length chars) + 1 <= free_bytes hp ->
       st = Z.of_nat (length chars) + 1 /\
       text string' = Some (chars ++ [0]) /\
       cString_len string' = Z.of_nat (length chars) /\
       free_bytes hp' = free_bytes hp - (Z.of_nat (length chars) + 1) /\
       live_blocks hp' = S (live_blocks hp)) /\
    (free_bytes hp < Z.of_nat (length chars) + 1 ->
       st = -1 /\ text string' = None /\ len string' = len string /\ hp' = hp).
Proof.
  intros Hc Hmax.
  destruct (Z.le_gt_cases (Z.of_nat (length chars) + 1) (free_bytes hp)) as [Hf | Hf].
  - rewrite cString_set_ok by assumption.
    eexists _, _, _. split; [reflexivity |]. split; [| lia].
    intros _. cbn [text len free_bytes live_blocks]. unfold cString_len. cbn [len].
    unfold CInt.INT_MAX in Hmax.
    rewrite to_size_t_small by (unfold CInt.SIZE_MAX; lia).
    repeat split; try reflexivity. lia.
  - rewrite cString_set_no_memory by assumption.
    eexists _, _, _. split; [reflexivity |]. split; [lia |].
    intros _. repeat split; reflexivity.
Qed.

Lemma cString_set_then_len_witness :
  exists st string' hp',
    cString_set {| text := None; len := 0 |} ([72; 105] ++ 0 :: [33])
      {| free_bytes := 100; live_blocks := 0 |} = Some (st, string', hp') /\
    (Z.of_nat (length [72; 105]) + 1 <= free_bytes {| free_bytes := 100; live_blocks := 0 |} ->
       st = Z.of_nat (length [72; 105]) + 1 /\
       text string' = Some ([72; 105] ++ [0]) /\
       cString_len string' = Z.of_nat (length [72; 105]) /\
       free_bytes hp' = free_bytes {| free_bytes := 100; live_blocks := 0 |}
                        - (Z.of_nat (length [72; 105]) + 1) /\
       live_blocks hp' = S (live_blocks {| free_bytes := 100; live_blocks := 0 |})) /\
    (free_bytes {| free_bytes := 100; live_blocks := 0 |} < Z.of_nat (length [72; 105]) + 1 ->
       st = -1 /\ text string' = None /\
       len string' = len {| text := None; len := 0 |} /\
       hp' = {| free_bytes := 100; live_blocks := 0 |}).
Proof.
  apply (cString_set_then_len {| text := None; len := 0 |} [72; 105] [33]
           {| free_bytes := 100; live_blocks := 0 |}).
  - repeat constructor; discriminate.
  - unfold CInt.INT_MAX. simpl. lia.
Defined.

(** ** Creating and freeing a string *)

Lemma cString_new_cases hp :
  cString_new hp =
    if sizeof_cString <=? free_bytes hp
    then (Some {| text := None; len := 0 |},
          {| free_bytes := free_bytes hp - sizeof_cString;
             live_blocks := S (live_blocks hp) |})
    else (None, hp).
Proof.
  unfold cString_new, calloc. change (sizeof_cString * 1) with 16.
  change sizeof_cString with 16.
  change (16 <=? CInt.SIZE_MAX) with true. cbn [andb].
  destruct (16 <=? free_bytes hp); reflexivity.
Qed.

Lemma free_after_alloc hp bytes :
  free bytes {| free_bytes := free_bytes hp - bytes;
                live_blocks := S (live_blocks hp) |} = hp.
Proof.
  unfold free. destruct hp as [fb lb]. cbn [free_bytes live_blocks pred].
  f_equal. lia.
Qed.

(** Create and free: for a C string of [n] characters, [cString_newStr]
    followed by [cString_free] always gives the heap back as it was and
    leaves a [NULL] pointer, whether the structure could not be obtained
    (the result is [NULL]), the structure could but the text could not,
    or both could.  In the middle case the failure of [cString_set] is not
    reported: the result is a structure with a [NULL] text and a zero
    length field, of which [cString_len] is [SIZE_MAX]. *)
Theorem cString_newStr_free (chars : list Z) (hp : heap) :
  Forall (fun c => c <> 0) chars ->
  Z.of_nat (length chars) + 1 <= CInt.INT_MAX ->
  exists p hp',
    cString_newStr (c_string chars) hp = Some (p, hp') /\
    cString_free p hp' = (None, hp) /\
    (free_bytes hp < 16 -> p = None) /\
    (16 <= free_bytes hp < 16 + (Z.of_nat (length chars) + 1) ->
       p = Some {| text := None; len := 0 |} /\
       cString_len {| text := None; len := 0 |} = CInt.SIZE_MAX) /\
    (16 + (Z.of_nat (length chars) + 1) <= free_bytes hp ->
       p = Some {| text := Some (c_string chars);
                   len := Z.of_nat (length chars) + 1 |}).
Proof.
  intros Hc Hmax. unfold cString_newStr. rewrite cString_new_cases.
  change sizeof_cString with 16.
  destruct (Z.leb_spec 16 (free_bytes hp)) as [H16 | H16].
  2: { eexists _, _. split; [reflexivity |]. split; [reflexivity |].
       split; [reflexivity |]. split; intros; lia. }
  set (hp1 := {| free_bytes := free_bytes hp - 16; live_blocks := S (live_blocks hp) |}).
  destruct (Z.le_gt_cases (Z.of_nat (length chars) + 1) (free_bytes hp1)) as [Hf | Hf].
  - unfold c_string. rewrite cString_set_ok by assumption.
    cbn [mbind option_bind fst snd].
    eexists _, _. split; [reflexivity |].
    split.
    { unfold cString_free. cbn [text]. change sizeof_cString with 16.
      fold (c_string chars). rewrite length_c_string.
      replace (Z.of_nat (S (length chars))) with (Z.of_nat (length chars) + 1) by lia.
      rewrite free_after_alloc. unfold hp1. rewrite free_after_alloc. reflexivity. }
    cbn [free_bytes hp1] in Hf.
    split; [intros; lia |]. split; [intros; lia |]. intros _. reflexivity.
  - unfold c_string. rewrite cString_set_no_memory by assumption.
    cbn [mbind option_bind fst snd len].
    eexists _, _. split; [reflexivity |].
    split.
    { unfold cString_free. cbn [text]. change sizeof_cString with 16.
      unfold hp1. rewrite free_after_alloc. reflexivity. }
    cbn [free_bytes hp1] in Hf.
    split; [intros; lia |]. split; [| intros; lia].
    intros _. split; reflexivity.
Qed.

Lemma cString_newStr_free_witness :
  exists p hp',
    cString_newStr (c_string [72; 105]) {| free_bytes := 17; live_blocks := 0 |}
      = Some (p, hp') /\
    cString_free p hp' = (None, {| free_bytes := 17; live_blocks := 0 |}) /\
    (free_bytes {| free_bytes := 17; live_blocks := 0 |} < 16 -> p = None) /\
    (16 <= free_bytes {| free_bytes := 17; live_blocks := 0 |}
        < 16 + (Z.of_nat (length [72; 105]) + 1) ->
       p = Some {| text := None; len := 0 |} /\
       cString_len {| text := None; len := 0 |} = CInt.SIZE_MAX) /\
    (16 + (Z.of_nat (length [72; 105]) + 1)
       <= free_bytes {| free_bytes := 17; live_blocks := 0 |} ->
       p = Some {| text := Some (c_string [72; 105]);
                   len := Z.of_nat (length [72; 105]) + 1 |}).
Proof.
  apply (cString_newStr_free [72; 105] {| free_bytes := 17; live_blocks := 0 |}).
  - repeat constructor; discriminate.
  - unfold CInt.INT_MAX. simpl. lia.
Defined.

(** Setting twice leaks: [cString_set] does not free the text that the
    string holds.  After a string is created from one C string and set to
    another, [cString_free] frees the second text and the structure only:
    the block of the first text stays allocated for good. *)
Theorem cString_set_twice_leaks (chars1 chars2 : list Z) (hp : heap) :
  Forall (fun c => c <> 0) chars1 -> Forall (fun c => c <> 0) chars2 ->
  Z.of_nat (length chars1) + 1 <= CInt.INT_MAX ->
  Z.of_nat (length chars2) + 1 <= CInt.INT_MAX ->
  16 + (Z.of_nat (length chars1) + 1) + (Z.of_nat (length chars2) + 1)
    <= free_bytes hp ->
  exists s1 hp1 st s2 hp2,
    cString_newStr (c_string chars1) hp = Some (Some s1, hp1) /\
    cString_set s1 (c_string chars2) hp1 = Some (st, s2, hp2) /\
    text s2 = Some (c_string chars2) /\
    cString_free (Some s2) hp2 =
      (None, {| free_bytes := free_bytes hp - (Z.of_nat (length chars1) + 1);
                live_blocks := S (live_blocks hp) |}).
Proof.
  intros Hc1 Hc2 Hm1 Hm2 Hfree.
  unfold cString_newStr. rewrite cString_new_cases. change sizeof_cString with 16.
  destruct (Z.leb_spec 16 (free_bytes hp)) as [_ | ?]; [| lia].
  unfold c_string.
  rewrite cString_set_ok by (try assumption; cbn [free_bytes]; lia).
  cbn [mbind option_bind fst snd free_bytes live_blocks].
  eexists _, _, _, _, _. split; [reflexivity |].
  rewrite cString_set_ok by (try assumption; cbn [free_bytes]; lia).
  split; [reflexivity |]. split; [reflexivity |].
  unfold cString_free, free. cbn [text free_bytes live_blocks pred].
  rewrite length_c_string. change sizeof_cString with 16.
  do 2 f_equal. lia.
Qed.

Lemma cString_set_twice_leaks_witness :
  exists s1 hp1 st s2 hp2,
    cString_newStr (c_string [72; 105]) {| free_bytes := 100; live_blocks := 0 |}
      = Some (Some s1, hp1) /\
    cString_set s1 (c_string [66; 121; 101]) hp1 = Some (st, s2, hp2) /\
    text s2 = Some (c_string [66; 121; 101]) /\
    cString_free (Some s2) hp2 =
      (None, {| free_bytes := free_bytes {| free_bytes := 100; live_blocks := 0 |}
                              - (Z.of_nat (length [72; 105]) + 1);
                live_blocks := S (live_blocks {| free_bytes := 100; live_blocks := 0 |}) |}).
Proof.
  apply (cString_set_twice_leaks [72; 105] [66; 121; 101]
           {| free_bytes := 100; live_blocks := 0 |}).
  - repeat constructor; discriminate.
  - repeat constructor; discriminate.
  - unfold CInt.INT_MAX. simpl. lia.
  - unfold CInt.INT_MAX. simpl. lia.
  - simpl. lia.
Defined.

(** ** Appending *)

Lemma drop_map_seq_last {A : Type} (f : nat -> A) k : forall a,
  drop k (map f (seq a (S k))) = [f (a + k)%nat].
Proof.
  induction k as [| k IH]; intros a.
  - simpl. rewrite Nat.add_0_r. reflexivity.
  - change (seq a (S (S k))) with (a :: seq (S a) (S k)).
    cbn [map drop]. rewrite IH. do 2 f_equal. lia.
Qed.

Lemma cString_len_set n :
  0 <= n < CInt.INT_MAX ->
  forall blk, cString_len {| text := blk; len := n + 1 |} = n.
Proof.
  unfold CInt.INT_MAX. intros Hn blk. unfold cString_len. cbn [len].
  replace (n + 1 - 1) with n by lia.
  apply to_size_t_small. unfold CInt.SIZE_MAX. lia.
Qed.

Lemma realloc_grow blk size junk hp :
  Z.of_nat (length blk) <= size <= CInt.INT_MAX -> 0 < size ->
  size - Z.of_nat (length blk) <= free_bytes hp ->
  realloc (Some blk) size junk hp =
    (Some (blk ++ map (fun i => junk i mod 256)
                      (seq (length blk) (Z.to_nat size - length blk))),
     {| free_bytes := free_bytes hp - (size - Z.of_nat (length blk));
        live_blocks := live_blocks hp |}).
Proof.
  unfold CInt.INT_MAX. intros Hs Hpos Hf. unfold realloc.
  destruct (Z.eqb_spec size 0); [lia |].
  unfold CInt.SIZE_MAX.
  destruct (Z.leb_spec size 18446744073709551615); [| lia].
  destruct (Z.leb_spec (size - Z.of_nat (length blk)) (free_bytes hp)); [| lia].
  cbn [andb]. rewrite take_ge by lia. reflexivity.
Qed.

Lemma realloc_no_memory blk size junk hp :
  0 < size -> free_bytes hp < size - Z.of_nat (length blk) ->
  realloc (Some blk) size junk hp = (None, hp).
Proof.
  intros Hpos Hf. unfold realloc.
  destruct (Z.eqb_spec size 0); [lia |].
  destruct (Z.leb_spec (size - Z.of_nat (length blk)) (free_bytes hp)); [lia |].
  rewrite andb_false_r. reflexivity.
Qed.

(** What [cString_append] makes of two strings that were set from C
    strings of [n1] and [n2] characters, when the heap has [n2] bytes to
    give: it returns [n1 + n2 + 1]; [string1] then holds the characters of
    the first followed by those of the second, and [cString_len] of it is
    [n1 + n2].  The last byte of its block is not written: it is the old
    NUL when the second string is empty, and otherwise the byte that
    [realloc] left there, so that the text is a C string only if that byte
    happens to be 0. *)
Theorem cString_append_text (chars1 chars2 : list Z) (junk : nat -> Z) (hp : heap) :
  Forall (fun c => c <> 0) chars1 -> Forall (fun c => c <> 0) chars2 ->
  Z.of_nat (length chars1) + Z.of_nat (length chars2) + 1 <= CInt.INT_MAX ->
  Z.of_nat (length chars2) <= free_bytes hp ->
  let n1 := Z.of_nat (length chars1) in
  let n2 := Z.of_nat (length chars2) in
  let string1 := {| text := Some (c_string chars1); len := n1 + 1 |} in
  let string2 := {| text := Some (c_string chars2); len := n2 + 1 |} in
  let last := match chars2 with
              | [] => 0
              | _ :: _ => junk (length chars1 + length chars2)%nat mod 256
              end in
  exists string1' hp',
    cString_append string1 string2 junk hp = Some (n1 + n2 + 1, string1', hp') /\
    text string1' = Some (chars1 ++ chars2 ++ [last]) /\
    len string1' = n1 + n2 + 1 /\
    cString_len string1' = n1 + n2 /\
    free_bytes hp' = free_bytes hp - n2 /\ live_blocks hp' = live_blocks hp /\
    (last = 0 -> strlen (chars1 ++ chars2 ++ [last]) = Some (n1 + n2)) /\
    (last <> 0 -> strlen (chars1 ++ chars2 ++ [last]) = None).
Proof.
  intros Hc1 Hc2 Hmax Hfree n1 n2 string1 string2 last.
  unfold CInt.INT_MAX in Hmax.
  assert (Hn1 : 0 <= n1) by (unfold n1; lia).
  assert (Hn2 : 0 <= n2) by (unfold n2; lia).
  assert (Hmax' : n1 + n2 + 1 <= 2147483647) by exact Hmax.
  assert (Hfree' : n2 <= free_bytes hp) by exact Hfree.
  assert (Hl1 : Z.of_nat (length chars1) = n1) by reflexivity.
  assert (Hl2 : Z.of_nat (length chars2) = n2) by reflexivity.
  unfold cString_append. cbv zeta.
  unfold string1, string2.
  rewrite !cString_len_set by (unfold CInt.INT_MAX; lia).
  rewrite to_size_t_small by (unfold CInt.SIZE_MAX; lia).
  cbn [text].
  rewrite realloc_grow;
    try (rewrite ?length_c_string; unfold CInt.INT_MAX; lia).
  rewrite length_c_string.
  replace (Z.to_nat (n1 + n2 + 1) - S (length chars1))%nat with (length chars2)
    by lia.
  cbn [mbind option_bind].
  replace (Z.to_nat n2) with (length chars2) by lia.
  unfold c_string at 2. rewrite strncpy_bytes_chars by exact Hc2.
  cbn [mbind option_bind].
  set (J := map (fun i => junk i mod 256) (seq (S (length chars1)) (length chars2))).
  assert (HJ : length J = length chars2).
  { unfold J. rewrite length_map, length_seq. reflexivity. }
  assert (Hdrop : drop (length chars2) (0 :: J) = [last]).
  { unfold last, J. destruct chars2 as [| c2 chars2]; [reflexivity |].
    cbn [length drop]. rewrite drop_map_seq_last. do 3 f_equal. lia. }
  assert (Hblit : blit (c_string chars1 ++ J) n1 chars2
                  = Some (chars1 ++ chars2 ++ [last])).
  { unfold blit.
    destruct (Z.leb_spec 0 n1); [| lia].
    destruct (Z.leb_spec (n1 + Z.of_nat (length chars2))
                         (Z.of_nat (length (c_string chars1 ++ J)))) as [_ | Hbad].
    2: { rewrite length_app, length_c_string, HJ in Hbad. lia. }
    cbn [andb]. unfold c_string. rewrite <- app_assoc.
    replace (Z.to_nat n1) with (length chars1) by lia.
    rewrite take_app_length.
    rewrite drop_app_add'; [| reflexivity].
    cbn [app]. rewrite Hdrop. reflexivity. }
  rewrite Hblit. cbn [mbind option_bind].
  rewrite wrap_small by lia.
  eexists _, _. split; [reflexivity |].
  cbn [text len free_bytes live_blocks].
  split; [reflexivity |]. split; [reflexivity |].
  split; [apply cString_len_set; unfold CInt.INT_MAX; lia |].
  split; [lia |]. split; [reflexivity |].
  split.
  - intros ->. rewrite app_assoc.
    rewrite strlen_chars by (apply Forall_app; split; assumption).
    rewrite length_app. f_equal. lia.
  - intros Hlast. apply strlen_no_nul.
    apply Forall_app; split; [exact Hc1 |].
    apply Forall_app; split; [exact Hc2 |]. repeat constructor. exact Hlast.
Qed.

Lemma cString_append_text_witness :
  exists string1' hp',
    cString_append {| text := Some (c_string [72; 105]); len := 3 |}
                   {| text := Some (c_string [33]); len := 2 |}
                   (stack_of 65) {| free_bytes := 10; live_blocks := 2 |}
      = Some (4, string1', hp') /\
    text string1' = Some [72; 105; 33; 65] /\
    strlen [72; 105; 33; 65] = None.
Proof.
  destruct (cString_append_text [72; 105] [33] (stack_of 65)
              {| free_bytes := 10; live_blocks := 2 |})
    as (s & hp' & E & Ht & _ & _ & _ & _ & _ & Hn).
  - repeat constructor; discriminate.
  - repeat constructor; discriminate.
  - unfold CInt.INT_MAX. simpl. lia.
  - simpl. lia.
  - exists s, hp'. split; [exact E |]. split; [exact Ht |].
    apply Hn. discriminate.
Defined.

(** When the heap cannot give the [n2] bytes that the second string
    needs, [cString_append] returns -1 and leaves the first string and the
    heap exactly as they were. *)
Theorem cString_append_no_memory (chars1 chars2 : list Z) (junk : nat -> Z)
    (hp : heap) :
  Z.of_nat (length chars1) + Z.of_nat (length chars2) + 1 <= CInt.INT_MAX ->
  free_bytes hp < Z.of_nat (length chars2) ->
  let string1 := {| text := Some (c_string chars1);
                    len := Z.of_nat (length chars1) + 1 |} in
  let string2 := {| text := Some (c_string chars2);
                    len := Z.of_nat (length chars2) + 1 |} in
  cString_append string1 string2 junk hp = Some (-1, string1, hp).
Proof.
  intros Hmax Hfree string1 string2. unfold CInt.INT_MAX in Hmax.
  unfold cString_append. cbv zeta. unfold string1, string2.
  rewrite !cString_len_set by (unfold CInt.INT_MAX; lia).
  rewrite to_size_t_small by (unfold CInt.SIZE_MAX; lia).
  cbn [text].
  rewrite realloc_no_memory by (rewrite ?length_c_string; lia).
  reflexivity.
Qed.

Lemma cString_append_no_memory_witness :
  cString_append {| text := Some (c_string [72; 105]);
                    len := Z.of_nat (length [72; 105]) + 1 |}
                 {| text := Some (c_string [33; 33]);
                    len := Z.of_nat (length [33; 33]) + 1 |}
                 (stack_of 0) {| free_bytes := 1; live_blocks := 2 |}
  = Some (-1, {| text := Some (c_string [72; 105]);
                 len := Z.of_nat (length [72; 105]) + 1 |},
          {| free_bytes := 1; live_blocks := 2 |}).
Proof.
  apply (cString_append_no_memory [72; 105] [33; 33] (stack_of 0)
           {| free_bytes := 1; live_blocks := 2 |}).
  - unfold CInt.INT_MAX. simpl. lia.
  - simpl. lia.
Defined.

(** Appending to a string that was never set is undefined: for the zeroed
    structure that [cString_new] returns, [cString_len] wraps around to
    [SIZE_MAX], the new length comes out as the length of the second
    string alone, and the copy of its characters is aimed at the offset
    [SIZE_MAX] of the new block, outside of it. *)
Theorem cString_append_to_unset (chars2 : list Z) (junk : nat -> Z) (hp : heap) :
  Forall (fun c => c <> 0) chars2 ->
  chars2 <> [] ->
  Z.of_nat (length chars2) + 1 <= CInt.INT_MAX ->
  Z.of_nat (length chars2) <= free_bytes hp ->
  cString_len {| text := None; len := 0 |} = CInt.SIZE_MAX /\
  cString_append {| text := None; len := 0 |}
                 {| text := Some (c_string chars2);
                    len := Z.of_nat (length chars2) + 1 |} junk hp = None.
Proof.
  intros Hc Hne Hmax Hfree. unfold CInt.INT_MAX in Hmax.
  split; [reflexivity |].
  unfold cString_append. cbv zeta.
  rewrite (cString_len_set (Z.of_nat (length chars2))) by (unfold CInt.INT_MAX; lia).
  change (cString_len {| text := None; len := 0 |}) with CInt.SIZE_MAX.
  assert (Hnew : CInt.to_size_t (CInt.SIZE_MAX + Z.of_nat (length chars2) + 1)
                 = Z.of_nat (length chars2)).
  { unfold CInt.to_size_t.
    replace (CInt.SIZE_MAX + Z.of_nat (length chars2) + 1)
      with (Z.of_nat (length chars2) + 1 * (CInt.SIZE_MAX + 1)) by lia.
    rewrite Z.mod_add by (unfold CInt.SIZE_MAX; lia).
    apply Z.mod_small. unfold CInt.SIZE_MAX. lia. }
  rewrite Hnew. cbn [text]. unfold realloc.
  rewrite malloc_fits by (unfold CInt.INT_MAX; lia).
  cbn [mbind option_bind]. rewrite Nat2Z.id.
  unfold c_string. rewrite strncpy_bytes_chars by exact Hc.
  cbn [mbind option_bind]. unfold blit.
  destruct (Z.leb_spec (CInt.SIZE_MAX + Z.of_nat (length chars2))
              (Z.of_nat (length (take (length chars2) [] ++
                 map (fun i => junk i mod 256)
                     (seq (length (@nil Z)) (length chars2 - length (@nil Z)))))))
    as [Hbad | _].
  - exfalso. rewrite length_app, length_map, length_seq, take_nil in Hbad.
    cbn [length] in Hbad. unfold CInt.SIZE_MAX in Hbad.
    destruct chars2; [contradiction |]. cbn [length] in Hbad. lia.
  - rewrite andb_false_r. reflexivity.
Qed.

Lemma cString_append_to_unset_witness :
  cString_len {| text := None; len := 0 |} = CInt.SIZE_MAX /\
  cString_append {| text := None; len := 0 |}
                 {| text := Some (c_string [72; 105]);
                    len := Z.of_nat (length [72; 105]) + 1 |}
                 (stack_of 0) {| free_bytes := 100; live_blocks := 2 |} = None.
Proof.
  apply (cString_append_to_unset [72; 105] (stack_of 0)
           {| free_bytes := 100; live_blocks := 2 |}).
  - repeat constructor; discriminate.
  - discriminate.
  - unfold CInt.INT_MAX. simpl. lia.
  - simpl. lia.
Defined.

(** * Part V: when the file is determined by the canvas *)

Lemma writeBitmapData_bitmap_indep out1 out2 b stack1 stack2 r1 r2 :
  writeBitmapData out1 b stack1 = Some r1 ->
  writeBitmapData out2 b stack2 = Some r2 ->
  snd r1 = snd r2.
Proof.
  unfold writeBitmapData. intros H1 H2.
  destruct (BMP_BYTES_PER_LINE (width (header b)) BITCOUNT <=? 0); [discriminate |].
  destruct (for_loop _ _ _) as [[lb1 o1] |] in H1; [| discriminate].
  destruct (for_loop _ _ _) as [[lb2 o2] |] in H2; [| discriminate].
  cbn [mbind option_bind] in H1, H2.
  injection H1 as <-. injection H2 as <-. reflexivity.
Qed.

Lemma stride_multiple_of_4 w :
  0 < w -> w * 24 + 31 <= CInt.INT_MAX -> w mod 4 = 0 ->
  BMP_BYTES_PER_LINE w BITCOUNT = 3 * w.
Proof.
  intros Hw Hm H4. rewrite stride_value by assumption.
  pose proof (Z.div_mod w 4 ltac:(lia)) as Hdm. rewrite H4 in Hdm.
  replace (w * 24 + 31) with (31 + (3 * (w / 4)) * 32) by lia.
  rewrite Z.div_add by lia. change (31 / 32) with 0. lia.
Qed.

(** Rows without padding: when the width is a multiple of 4 a scanline is
    its pixel bytes and nothing more, and the encoder gives the same file
    and the same bitmap whatever the stack holds. *)
Theorem writeBitmapData_without_padding (out : FILE) (b : bitmapData)
    (stack1 stack2 : nat -> Z) :
  canvas_ok b -> width (header b) mod 4 = 0 ->
  BMP_BYTES_PER_LINE (width (header b)) BITCOUNT = 3 * width (header b) /\
  writeBitmapData out b stack1 = writeBitmapData out b stack2 /\
  is_Some (writeBitmapData out b stack1).
Proof.
  intros Hok H4.
  assert (Hw : 0 < width (header b)) by apply Hok.
  assert (Hs : BMP_BYTES_PER_LINE (width (header b)) BITCOUNT = 3 * width (header b)).
  { apply stride_multiple_of_4; [exact Hw | apply Hok | exact H4]. }
  split; [exact Hs |].
  destruct (writeBitmapData_spec out b stack1 Hok) as (b1 & E1 & _).
  destruct (writeBitmapData_spec out b stack2 Hok) as (b2 & E2 & _).
  assert (Hb : b1 = b2) by exact (writeBitmapData_bitmap_indep _ _ _ _ _ _ _ E1 E2).
  assert (Hpad : forall stack,
            padding b (uninitialised stack
                         (BMP_BYTES_PER_LINE (width (header b)) BITCOUNT)) = []).
  { intros stack. unfold padding. apply drop_ge.
    rewrite length_uninitialised, Hs. lia. }
  split; [| rewrite E1; eauto].
  rewrite E1, E2, Hb. rewrite !Hpad. reflexivity.
Qed.

Lemma canvas_ok_blank_4_3 : canvas_ok (blank 4 3).
Proof.
  unfold canvas_ok, CInt.INT_MAX.
  change (BMP_BYTES_PER_LINE (width (header (blank 4 3))) BITCOUNT) with 12.
  simpl. repeat split; lia.
Qed.

Lemma writeBitmapData_without_padding_witness :
  BMP_BYTES_PER_LINE (width (header (blank 4 3))) BITCOUNT
    = 3 * width (header (blank 4 3)) /\
  writeBitmapData (fresh_stream 100) (blank 4 3) (stack_of 170) =
  writeBitmapData (fresh_stream 100) (blank 4 3) (stack_of 85) /\
  is_Some (writeBitmapData (fresh_stream 100) (blank 4 3) (stack_of 170)).
Proof.
  apply (writeBitmapData_without_padding (fresh_stream 100) (blank 4 3)
           (stack_of 170) (stack_of 85)).
  - exact canvas_ok_blank_4_3.
  - reflexivity.
Defined.
